(** * Neutron star structure: the TOV system, its equations of state,
      the outward integration loop and the mass-radius sweep.

    Shallow embedding of [neutron-star-structure.ipynb].

    Numbers.  The notebook computes with binary floating-point numbers.
    They are read here as exact real numbers ([R]); rounding, overflow and
    the special values inf and nan are not represented.  Where a float
    operation has no finite real value the embedding stops with a [fault]:
    a division by zero (ZeroDivisionError on Python floats, inf or nan on
    numpy scalars) and a negative base raised to a non-integer power (a
    complex number on Python floats, nan on numpy scalars).

    Effects.  Calls return an [outcome]: a value, a fault, or [OutOfFuel]
    when a [while] loop was cut off by its fuel. *)

From Stdlib Require Import String.
From Stdlib Require Import Reals Lra Lia List Bool Arith.
From Stdlib Require Floats.
Import ListNotations.
#[local] Open Scope R_scope.

(** ** Outcomes of Python calls *)

Inductive fault : Type :=
| ZeroDivisionError
| NotARealNumber
| IndexError
| KeyError
| SolverError.

Inductive outcome (A : Type) : Type :=
| Returned (a : A)
| Failed (e : fault)
| OutOfFuel.

Arguments Returned {A} a.
Arguments Failed {A} e.
Arguments OutOfFuel {A}.

Definition bind {A B : Type} (c : outcome A) (k : A -> outcome B) : outcome B :=
  match c with
  | Returned a => k a
  | Failed e => Failed e
  | OutOfFuel => OutOfFuel
  end.

Notation "x <- c ;; k" := (bind c (fun x => k))
  (at level 61, c at next level, right associativity).

(** ** Float operations, on reals *)

Definition Rltb (x y : R) : bool := if Rlt_dec x y then true else false.
Definition Rleb (x y : R) : bool := if Rle_dec x y then true else false.
Definition Rgeb (x y : R) : bool := if Rge_dec x y then true else false.
Definition Reqb (x y : R) : bool := if Req_dec_T x y then true else false.

(** [a / b] *)
Definition fdiv (a b : R) : outcome R :=
  if Reqb b 0 then Failed ZeroDivisionError else Returned (a / b).

(** Is [y] an integer, and which one. *)
Definition as_integer (y : R) : option Z :=
  let z := (up y - 1)%Z in
  if Reqb (IZR z) y then Some z else None.

(** [x ** y] with a float exponent (C's pow). *)
Definition fpow (x y : R) : outcome R :=
  if Rltb 0 x then Returned (Rpower x y)
  else if Reqb x 0 then
    if Rltb 0 y then Returned 0
    else if Reqb y 0 then Returned 1
    else Failed ZeroDivisionError
  else
    match as_integer y with
    | Some z => Returned (powerRZ x z)
    | None => Failed NotARealNumber
    end.

(** ** The TOV equations *)

Definition pi : R := PI.

(** [x ** n] with an integer literal exponent is [x ^ n]. *)
Definition dp_dr (r p m rho : R) : outcome R :=
  if Rleb r 0 then Returned 0
  else
    q <- fdiv (- (rho + p) * (m + 4 * pi * r ^ 3 * p)) r ;;
    fdiv q (r - 2 * m).

Definition dm_dr (r p m rho : R) : outcome R :=
  Returned (4 * pi * r ^ 2 * rho).

Definition tov_equations (r : R) (p_and_m : R * R) (eos_rho : R -> outcome R)
  : outcome (R * R) :=
  rho <- eos_rho (fst p_and_m) ;;
  dp <- dp_dr r (fst p_and_m) (snd p_and_m) rho ;;
  dm <- dm_dr r (fst p_and_m) (snd p_and_m) rho ;;
  Returned (dp, dm).

(** ** A simple polytropic EOS *)

Section SimplePolytrope.

(** [rho_nuclear.to(rho_units).value] and [p_nuclear.to(p_units).value]:
    the numbers come from astropy's constants. *)
Variables rho_nuclear_v p_nuclear_v : R.

Definition eos_p_simple (rho_rest : R) : outcome R :=
  q <- fdiv rho_rest rho_nuclear_v ;;
  Returned (q ^ 3 * p_nuclear_v).

Definition eos_rho_rest_simple (p : R) : outcome R :=
  q <- fdiv p p_nuclear_v ;;
  w <- fpow q (1 / 3) ;;
  Returned (w * rho_nuclear_v).

Definition eos_rho_simple (p : R) : outcome R :=
  rho_rest <- eos_rho_rest_simple p ;;
  Returned (rho_rest + p / 2).

End SimplePolytrope.

(** ** EOS for a multi-layered neutron star *)

(** [np.piecewise] on a scalar: the output starts at zero and every pair
    (condition, function) whose condition holds overwrites it, in order;
    a function is only called where its condition holds. *)
Fixpoint piecewise_from (x : R) (condlist : list bool)
         (funclist : list (R -> outcome R)) (y : R) : outcome R :=
  match condlist, funclist with
  | c :: condlist', f :: funclist' =>
      if c then v <- f x ;; piecewise_from x condlist' funclist' v
      else piecewise_from x condlist' funclist' y
  | _, _ => Returned y
  end.

Definition np_piecewise (x : R) (condlist : list bool)
           (funclist : list (R -> outcome R)) : outcome R :=
  piecewise_from x condlist funclist 0.

(** Low-density adiabatic index *)
Definition gamma0 : R := 133 / 100.

(** [lambda rho: K * (rho / rho_b)**gamma] *)
Definition pressure_law (K rho_b gamma : R) (rho : R) : outcome R :=
  q <- fdiv rho rho_b ;;
  w <- fpow q gamma ;;
  Returned (K * w).

(** [lambda p: (p / p_b)**(1 / gamma) * rho_b] *)
Definition rest_density_law (p_b rho_b gamma : R) (p : R) : outcome R :=
  q <- fdiv p p_b ;;
  e <- fdiv 1 gamma ;;
  w <- fpow q e ;;
  Returned (w * rho_b).

(** [lambda p: C * rho_rest(p) + p / (gamma - 1)] *)
Definition energy_density_law (rho_rest : R -> outcome R) (C gamma : R) (p : R)
  : outcome R :=
  r <- rho_rest p ;;
  d <- fdiv p (gamma - 1) ;;
  Returned (C * r + d).

Section PiecewisePolytrope.

(** The densities that bound the layers, in geometric units. *)
Variables rho0_v rho1_v rho2_v : R.

(** [p0 = p1 * (rho0_v / rho1_v)**gamma1] *)
Definition pressure_p0 (p1 gamma1 : R) : outcome R :=
  q <- fdiv rho0_v rho1_v ;;
  w <- fpow q gamma1 ;;
  Returned (p1 * w).

(** [p2 = p1 * (rho2_v / rho1_v)**gamma2] *)
Definition pressure_p2 (p1 gamma2 : R) : outcome R :=
  q <- fdiv rho2_v rho1_v ;;
  w <- fpow q gamma2 ;;
  Returned (p1 * w).

Definition density_conditions (rho : R) : list bool :=
  [ Rltb rho rho0_v;
    Rgeb rho rho0_v && Rltb rho rho1_v;
    Rgeb rho rho1_v && Rltb rho rho2_v;
    Rgeb rho rho2_v ].

Definition pressure_conditions (p p0 p1 p2 : R) : list bool :=
  [ Rltb p p0;
    Rgeb p p0 && Rltb p p1;
    Rgeb p p1 && Rltb p p2;
    Rgeb p p2 ].

Definition pressure_laws (p0 p1 p2 gamma1 gamma2 gamma3 : R)
  : list (R -> outcome R) :=
  [ pressure_law p0 rho0_v gamma0;
    pressure_law p1 rho1_v gamma1;
    pressure_law p1 rho1_v gamma2;
    pressure_law p2 rho2_v gamma3 ].

Definition rest_density_laws (p0 p1 p2 gamma1 gamma2 gamma3 : R)
  : list (R -> outcome R) :=
  [ rest_density_law p0 rho0_v gamma0;
    rest_density_law p1 rho1_v gamma1;
    rest_density_law p1 rho1_v gamma2;
    rest_density_law p2 rho2_v gamma3 ].

Definition eos_p_polytropic (rho p1 gamma1 gamma2 gamma3 : R) : outcome R :=
  p0 <- pressure_p0 p1 gamma1 ;;
  p2 <- pressure_p2 p1 gamma2 ;;
  np_piecewise rho (density_conditions rho)
               (pressure_laws p0 p1 p2 gamma1 gamma2 gamma3).

Definition eos_rho_rest_polytropic (p p1 gamma1 gamma2 gamma3 : R) : outcome R :=
  p0 <- pressure_p0 p1 gamma1 ;;
  p2 <- pressure_p2 p1 gamma2 ;;
  np_piecewise p (pressure_conditions p p0 p1 p2)
               (rest_density_laws p0 p1 p2 gamma1 gamma2 gamma3).

(** [C_next = C + p_b / rho_b * (1 / (gamma - 1) - 1 / (gamma_next - 1))] *)
Definition next_constant (C p_b rho_b gamma gamma_next : R) : outcome R :=
  q <- fdiv p_b rho_b ;;
  a <- fdiv 1 (gamma - 1) ;;
  b <- fdiv 1 (gamma_next - 1) ;;
  Returned (C + q * (a - b)).

Definition energy_constants (p0 p1 p2 gamma1 gamma2 gamma3 : R)
  : outcome (R * R * R * R) :=
  let C0 := 1 in
  C1 <- next_constant C0 p0 rho0_v gamma0 gamma1 ;;
  C2 <- next_constant C1 p1 rho1_v gamma1 gamma2 ;;
  C3 <- next_constant C2 p2 rho2_v gamma2 gamma3 ;;
  Returned (C0, C1, C2, C3).

Definition energy_density_laws (rho_rest : R -> outcome R)
           (Cs : R * R * R * R) (gamma1 gamma2 gamma3 : R)
  : list (R -> outcome R) :=
  let '(C0, C1, C2, C3) := Cs in
  [ energy_density_law rho_rest C0 gamma0;
    energy_density_law rho_rest C1 gamma1;
    energy_density_law rho_rest C2 gamma2;
    energy_density_law rho_rest C3 gamma3 ].

Definition eos_rho_polytropic (p p1 gamma1 gamma2 gamma3 : R) : outcome R :=
  p0 <- pressure_p0 p1 gamma1 ;;
  p2 <- pressure_p2 p1 gamma2 ;;
  let rho_rest := fun p => eos_rho_rest_polytropic p p1 gamma1 gamma2 gamma3 in
  Cs <- energy_constants p0 p1 p2 gamma1 gamma2 gamma3 ;;
  np_piecewise p (pressure_conditions p p0 p1 p2)
               (energy_density_laws rho_rest Cs gamma1 gamma2 gamma3).

End PiecewisePolytrope.

(** ** The constants of the notebook *)

Section Units.

(** The numbers of one kg/m^3 in [rho_units] and of one N/m^2 in
    [p_units]; they come from astropy's [G] and [c]. *)
Variables rho_factor p_factor : R.

(** [2.3e17 * units.kg / units.m**3] *)
Definition rho_nuclear_value : R := 23 / 10 * 10 ^ 17 * rho_factor.

(** [3e32 * units.N / units.m**2] *)
Definition p_nuclear_value : R := 3 * 10 ^ 32 * p_factor.

(** [rho0 = rho_nuclear] *)
Definition rho0_value : R := rho_nuclear_value.

(** [10**14.7 * units.g / units.cm**3]; one g/cm^3 is 1000 kg/m^3. *)
Definition rho1_value : R := Rpower 10 (147 / 10) * 1000 * rho_factor.

(** [10**15 * units.g / units.cm**3] *)
Definition rho2_value : R := 10 ^ 15 * 1000 * rho_factor.

(** An entry of [polytropes]; [p1] in dyne/cm^2. *)
Record polytrope : Type := {
  poly_p1 : R;
  poly_gamma1 : R;
  poly_gamma2 : R;
  poly_gamma3 : R
}.

Definition polytropes : list (String.string * polytrope) :=
  [ ("SLy"%string,
     {| poly_p1 := Rpower 10 (34384 / 1000);
        poly_gamma1 := 3005 / 1000;
        poly_gamma2 := 2988 / 1000;
        poly_gamma3 := 2851 / 1000 |});
    ("GS1"%string,
     {| poly_p1 := Rpower 10 (34504 / 1000);
        poly_gamma1 := 2350 / 1000;
        poly_gamma2 := 1267 / 1000;
        poly_gamma3 := 2421 / 1000 |}) ].

(** [polytropes[name]] *)
Fixpoint polytropes_get (table : list (String.string * polytrope)) (name : String.string)
  : outcome polytrope :=
  match table with
  | [] => Failed KeyError
  | (k, v) :: table' =>
      if String.eqb k name then Returned v else polytropes_get table' name
  end.

(** [params['p1'].to(p_units).value]; one dyne/cm^2 is 0.1 N/m^2. *)
Definition p1_value (params : polytrope) : R :=
  poly_p1 params * (1 / 10) * p_factor.

Definition make_polytrope_eos_p_and_rho (name : String.string)
  : outcome ((R -> outcome R) * (R -> outcome R)) :=
  params <- polytropes_get polytropes name ;;
  let p1 := p1_value params in
  Returned
    (fun rho => eos_p_polytropic rho0_value rho1_value rho2_value rho p1
                  (poly_gamma1 params) (poly_gamma2 params) (poly_gamma3 params),
     fun p => eos_rho_polytropic rho0_value rho1_value rho2_value p p1
                (poly_gamma1 params) (poly_gamma2 params) (poly_gamma3 params)).

End Units.

(** ** Integration of the TOV equations *)

(** The state of scipy's [ode] object: the current radius [t], the current
    pair (p, m) and the flag [successful()] reads. *)
Record ode : Type := {
  ode_t : R;
  ode_y : R * R;
  ode_success : bool
}.

(** What [solve_tov_equations] returns: the three arrays. *)
Record tov_profile : Type := {
  r_path : list R;
  p_path : list R;
  m_path : list R
}.

Definition profile_of (r_path : list R) (p_and_m_path : list (R * R)) : tov_profile :=
  {| r_path := r_path;
     p_path := map fst p_and_m_path;
     m_path := map snd p_and_m_path |}.

Section Integration.

(** [integrator.integrate(t1)] of the dopri5 solver, for a given right-hand
    side: the library call, taken as it is.  It returns the state it
    reached, with the success flag cleared when the step failed. *)
Variable ode_integrate : (R -> R * R -> outcome (R * R)) -> ode -> R -> outcome ode.

(** The [while integrator.successful()] loop; the last integrator state is
    kept next to the paths so that theorems can speak of it. *)
Fixpoint tov_while (fuel : nat) (f : R -> R * R -> outcome (R * R)) (step : R)
         (integrator : ode) (r_path : list R) (p_and_m_path : list (R * R))
  : outcome (ode * list R * list (R * R)) :=
  match fuel with
  | O => OutOfFuel
  | S fuel' =>
      if ode_success integrator then
        integrator' <- ode_integrate f integrator (ode_t integrator + step) ;;
        let p_and_m := ode_y integrator' in
        let r_path' := r_path ++ [ode_t integrator'] in
        let p_and_m_path' := p_and_m_path ++ [p_and_m] in
        if Rleb (fst p_and_m) 0 then Returned (integrator', r_path', p_and_m_path')
        else tov_while fuel' f step integrator' r_path' p_and_m_path'
      else Returned (integrator, r_path, p_and_m_path)
  end.

Definition initial_integrator (p_central : R) : ode :=
  {| ode_t := 0; ode_y := (p_central, 0); ode_success := true |}.

Definition solve_tov_run (fuel : nat) (p_central : R) (eos_rho : R -> outcome R)
           (step : R) : outcome (ode * list R * list (R * R)) :=
  let r_initial := 0 in
  let p_and_m_initial := (p_central, 0) in
  tov_while fuel (fun r p_and_m => tov_equations r p_and_m eos_rho) step
            (initial_integrator p_central) [r_initial] [p_and_m_initial].

Definition solve_tov_equations (fuel : nat) (p_central : R)
           (eos_rho : R -> outcome R) (step : R) : outcome tov_profile :=
  res <- solve_tov_run fuel p_central eos_rho step ;;
  Returned (profile_of (snd (fst res)) (snd res)).

(** The states a run goes through: each is what the solver returns from the
    one before, asked to advance by [step]. *)
Inductive solver_trace (f : R -> R * R -> outcome (R * R)) (step : R)
  : ode -> list ode -> Prop :=
| trace_nil : forall o, solver_trace f step o []
| trace_cons : forall o o' rest,
    ode_integrate f o (ode_t o + step) = Returned o' ->
    solver_trace f step o' rest ->
    solver_trace f step o (o' :: rest).

End Integration.

(** A state after which the loop goes on: the step succeeded and the
    pressure is still positive. *)
Definition goes_on (s : ode) : Prop :=
  ode_success s = true /\ 0 < fst (ode_y s).


(** ** The mass-radius sweep *)

(** [MR_data]: the rows of the data frame in order, each the index label
    [rho_central] with its columns [M] and [R]. *)
Definition MR_table : Type := list (R * (R * R)).

(** [MR_data.loc[key] = row]: the row of an existing label is overwritten
    in place, a new label is appended. *)
Fixpoint df_loc_set (df : MR_table) (key : R) (row : R * R) : MR_table :=
  match df with
  | [] => [(key, row)]
  | (k, v) :: df' =>
      if Reqb k key then (k, row) :: df'
      else (k, v) :: df_loc_set df' key row
  end.

(** [MR_data['M'].iat[-1]], read only when the frame has a row. *)
Definition df_last_M (df : MR_table) : R :=
  fst (snd (last df (0, (0, 0)))).

(** [a[-1]] *)
Definition last_item (a : list R) : outcome R :=
  match a with
  | [] => Failed IndexError
  | x :: a' => Returned (last a' x)
  end.

Section Sampling.

(** [solve_tov_equations(p_central=..., eos_rho=..., step=...)] *)
Variable solve_tov : R -> (R -> outcome R) -> R -> outcome tov_profile.

(** The numbers of [m_units.si] and [const.M_sun]. *)
Variables m_units_si M_sun : R.

Variables eos_p eos_rho : R -> outcome R.
Variables rho_central_start rho_central_log_step rho_central_stop : R.
Variable stop_at_maximum_mass : bool.

(** [M] and [R] of the star with a given central density. *)
Definition star_M_R (rho_central : R) : outcome (R * R) :=
  p_central <- eos_p rho_central ;;
  prof <- solve_tov p_central eos_rho (1 / 10) ;;
  R_ <- last_item (r_path prof) ;;
  m_last <- last_item (m_path prof) ;;
  Returned (m_last * m_units_si / M_sun, R_).

Fixpoint sample_while (fuel : nat) (MR_data : MR_table) (rho_central : R)
  : outcome MR_table :=
  match fuel with
  | O => OutOfFuel
  | S fuel' =>
      if Rltb rho_central rho_central_stop then
        MR <- star_M_R rho_central ;;
        let M := fst MR in
        let R_ := snd MR in
        if stop_at_maximum_mass && (0 <? length MR_data)%nat
           && Rltb M (df_last_M MR_data)
        then Returned MR_data
        else sample_while fuel' (df_loc_set MR_data rho_central (M, R_))
                          (rho_central + rho_central * rho_central_log_step)
      else Returned MR_data
  end.

Definition sample_eos_mass_radius (fuel : nat) : outcome MR_table :=
  sample_while fuel [] rho_central_start.

(** The central density at the start of iteration [n], were the loop to
    get there. *)
Fixpoint rho_central_at (n : nat) : R :=
  match n with
  | O => rho_central_start
  | S n' => rho_central_at n' + rho_central_at n' * rho_central_log_step
  end.

End Sampling.

(** The column [M] of the rows. *)
Definition row_M (row : R * (R * R)) : R := fst (snd row).

(** Every row holds at least the mass of the row before it. *)
Fixpoint mass_nondecreasing (df : MR_table) : Prop :=
  match df with
  | [] => True
  | a :: df' =>
      match df' with
      | [] => True
      | b :: _ => row_M a <= row_M b /\ mass_nondecreasing df'
      end
  end.

(** Every row is the star of its label. *)
Definition rows_of_stars (star : R -> outcome (R * R)) (df : MR_table) : Prop :=
  forall k v, In (k, v) df -> star k = Returned v.

(** The sweep as the notebook runs it, on the integration loop above. *)
Definition sample_eos_mass_radius_with
           (ode_integrate : (R -> R * R -> outcome (R * R)) -> ode -> R -> outcome ode)
           (solver_fuel : nat) (m_units_si M_sun : R) (eos_p eos_rho : R -> outcome R)
           (rho_central_start rho_central_log_step rho_central_stop : R)
           (stop_at_maximum_mass : bool) (fuel : nat) : outcome MR_table :=
  sample_eos_mass_radius (solve_tov_equations ode_integrate solver_fuel)
                         m_units_si M_sun eos_p eos_rho
                         rho_central_start rho_central_log_step rho_central_stop
                         stop_at_maximum_mass fuel.

(** [rho_central += rho_central * rho_central_log_step] on binary64
    numbers, as Python computes it. *)
Module BinaryFloat.
Import Floats.
#[local] Open Scope float_scope.

Definition next_rho_central (rho_central rho_central_log_step : float) : float :=
  rho_central + rho_central * rho_central_log_step.

End BinaryFloat.

(** ** Solvers and stars used as examples *)

(** A solver that reaches the requested radius with a fixed pair (p, m) and
    a fixed success flag. *)
Definition fixed_solver (ok : bool) (p m : R)
  : (R -> R * R -> outcome (R * R)) -> ode -> R -> outcome ode :=
  fun _ _ t1 => Returned {| ode_t := t1; ode_y := (p, m); ode_success := ok |}.

(** A solver that reaches the requested radius, takes 1/2 off the
    pressure and adds 1/10 to the mass at every step. *)
Definition draining_solver
  : (R -> R * R -> outcome (R * R)) -> ode -> R -> outcome ode :=
  fun _ o t1 =>
    Returned {| ode_t := t1;
                ode_y := (fst (ode_y o) - 1 / 2, snd (ode_y o) + 1 / 10);
                ode_success := true |}.

(** A star whose profile ends at radius 1 with the given mass. *)
Definition star_of_mass (mass : R -> R)
  : R -> (R -> outcome R) -> R -> outcome tov_profile :=
  fun p_central _ _ =>
    Returned {| r_path := [0; 1]; p_path := [p_central; 0];
                m_path := [0; mass p_central] |}.

(** A call that never succeeds. *)
Definition broken_star : R -> (R -> outcome R) -> R -> outcome tov_profile :=
  fun _ _ _ => Failed SolverError.

(** ** Values used in the statements *)

(** The power of a non-negative base to a positive exponent, as a value. *)
Definition pw (q gamma : R) : R :=
  if Rltb 0 q then Rpower q gamma else 0.

(** The number a call returned. *)
Definition value (o : outcome R) : R :=
  match o with
  | Returned v => v
  | _ => 0
  end.

(** The law of segment [i] in a list of segment laws. *)
Definition law (i : nat) (laws : list (R -> outcome R)) : R -> outcome R :=
  nth i laws (fun _ => Failed IndexError).

(** ** Basic facts on the float operations *)

Lemma Rltb_true (x y : R) : x < y -> Rltb x y = true.
Proof. intros H. unfold Rltb. destruct (Rlt_dec x y); [reflexivity | contradiction]. Qed.

Lemma Rltb_false (x y : R) : y <= x -> Rltb x y = false.
Proof. intros H. unfold Rltb. destruct (Rlt_dec x y); [lra | reflexivity]. Qed.

Lemma Rleb_true (x y : R) : x <= y -> Rleb x y = true.
Proof. intros H. unfold Rleb. destruct (Rle_dec x y); [reflexivity | contradiction]. Qed.

Lemma Rleb_false (x y : R) : y < x -> Rleb x y = false.
Proof. intros H. unfold Rleb. destruct (Rle_dec x y); [lra | reflexivity]. Qed.

Lemma Rgeb_true (x y : R) : y <= x -> Rgeb x y = true.
Proof. intros H. unfold Rgeb. destruct (Rge_dec x y); [reflexivity | lra]. Qed.

Lemma Rgeb_false (x y : R) : x < y -> Rgeb x y = false.
Proof. intros H. unfold Rgeb. destruct (Rge_dec x y); [lra | reflexivity]. Qed.

Lemma Reqb_true (x y : R) : x = y -> Reqb x y = true.
Proof. intros H. unfold Reqb. destruct (Req_dec_T x y); [reflexivity | contradiction]. Qed.

Lemma Reqb_false (x y : R) : x <> y -> Reqb x y = false.
Proof. intros H. unfold Reqb. destruct (Req_dec_T x y); [contradiction | reflexivity]. Qed.

Lemma fdiv_ok (a b : R) : b <> 0 -> fdiv a b = Returned (a / b).
Proof. intros H. unfold fdiv. now rewrite Reqb_false. Qed.

Lemma fdiv_zero (a : R) : fdiv a 0 = Failed ZeroDivisionError.
Proof. unfold fdiv. now rewrite Reqb_true. Qed.

Lemma fpow_pos (x y : R) : 0 < x -> fpow x y = Returned (Rpower x y).
Proof. intros H. unfold fpow. now rewrite Rltb_true. Qed.

Lemma fpow_zero (y : R) : 0 < y -> fpow 0 y = Returned 0.
Proof.
  intros H. unfold fpow.
  rewrite Rltb_false by lra. rewrite Reqb_true by reflexivity.
  now rewrite Rltb_true.
Qed.

(** ** The TOV right-hand side *)

(** C1.  For a state with [r > 0] the system returns the pair
    [dp/dr = -(rho + p) (m + 4 pi r^3 p) / (r (r - 2m))] and
    [dm/dr = 4 pi r^2 rho], with [rho] the energy density the equation of
    state gives at [p] (the quotient being the division of the formula,
    which has no value at [r = 2m]); for a state with [r <= 0] the pressure
    derivative is exactly [0]. *)
Theorem tov_equations_spec (eos_rho : R -> outcome R) (r p m rho : R) :
  eos_rho p = Returned rho ->
  (0 < r ->
   tov_equations r (p, m) eos_rho =
     (dp <- fdiv (- (rho + p) * (m + 4 * pi * r ^ 3 * p)) (r * (r - 2 * m)) ;;
      Returned (dp, 4 * pi * r ^ 2 * rho)))
  /\ (0 < r -> r <> 2 * m ->
      tov_equations r (p, m) eos_rho =
        Returned (- (rho + p) * (m + 4 * pi * r ^ 3 * p) / (r * (r - 2 * m)),
                  4 * pi * r ^ 2 * rho))
  /\ (r <= 0 ->
      tov_equations r (p, m) eos_rho = Returned (0, 4 * pi * r ^ 2 * rho)).
Proof.
  intros Hrho. unfold tov_equations, dp_dr, dm_dr. cbn [fst snd].
  rewrite Hrho. cbn [bind].
  assert (Hpos : 0 < r -> r <> 2 * m ->
    (q <- fdiv (- (rho + p) * (m + 4 * pi * r ^ 3 * p)) r ;; fdiv q (r - 2 * m))
    = Returned (- (rho + p) * (m + 4 * pi * r ^ 3 * p) / (r * (r - 2 * m)))).
  { intros Hr Hm.
    rewrite fdiv_ok by lra. cbn [bind]. rewrite fdiv_ok by lra.
    f_equal. field. split; lra. }
  split; [| split].
  - intros Hr. rewrite Rleb_false by assumption.
    destruct (Req_dec_T r (2 * m)) as [E | N].
    + rewrite fdiv_ok by lra. cbn [bind].
      replace (r - 2 * m) with 0 by lra.
      rewrite fdiv_zero. replace (r * 0) with 0 by ring.
      now rewrite fdiv_zero.
    + rewrite (Hpos Hr N). rewrite fdiv_ok; [reflexivity |].
      apply Rmult_integral_contrapositive_currified; lra.
  - intros Hr Hm. rewrite Rleb_false by assumption.
    now rewrite (Hpos Hr Hm).
  - intros Hr. now rewrite Rleb_true.
Qed.

(** ** Powers of non-negative numbers *)

Lemma fpow_nonneg (q gamma : R) :
  0 <= q -> 0 < gamma -> fpow q gamma = Returned (pw q gamma).
Proof.
  intros Hq Hg. unfold pw. destruct (Rlt_dec 0 q) as [P | N].
  - rewrite fpow_pos by assumption. now rewrite Rltb_true.
  - assert (q = 0) by lra. subst q.
    rewrite fpow_zero by assumption. now rewrite Rltb_false by lra.
Qed.

Lemma pw_pos (q gamma : R) : 0 < q -> 0 < pw q gamma.
Proof.
  intros Hq. unfold pw. rewrite Rltb_true by assumption.
  unfold Rpower. apply exp_pos.
Qed.

Lemma pw_nonneg (q gamma : R) : 0 <= pw q gamma.
Proof.
  unfold pw. destruct (Rlt_dec 0 q).
  - rewrite Rltb_true by assumption. unfold Rpower. left. apply exp_pos.
  - rewrite Rltb_false by lra. lra.
Qed.

Lemma pw_zero (gamma : R) : pw 0 gamma = 0.
Proof. unfold pw. now rewrite Rltb_false by lra. Qed.

Lemma pw_one (gamma : R) : pw 1 gamma = 1.
Proof.
  unfold pw. rewrite Rltb_true by lra.
  unfold Rpower. rewrite ln_1, Rmult_0_r. apply exp_0.
Qed.

Lemma pw_lt (a b gamma : R) : 0 < gamma -> 0 <= a < b -> pw a gamma < pw b gamma.
Proof.
  intros Hg [Ha Hab]. destruct (Rlt_dec 0 a) as [P | N].
  - unfold pw. rewrite !Rltb_true by lra. apply Rlt_Rpower_l; lra.
  - assert (a = 0) by lra. subst a. rewrite pw_zero. apply pw_pos. lra.
Qed.

Lemma pw_le (a b gamma : R) : 0 < gamma -> 0 <= a <= b -> pw a gamma <= pw b gamma.
Proof.
  intros Hg [Ha Hab]. destruct (Req_dec_T a b) as [E | N].
  - subst. lra.
  - left. apply pw_lt; lra.
Qed.

Lemma pw_inv (q gamma : R) : 0 <= q -> 0 < gamma -> pw (pw q gamma) (1 / gamma) = q.
Proof.
  intros Hq Hg. destruct (Rlt_dec 0 q) as [P | N].
  - pose proof (pw_pos q gamma P) as Hp.
    unfold pw at 1. rewrite Rltb_true by assumption.
    unfold pw. rewrite Rltb_true by assumption.
    rewrite Rpower_mult.
    replace (gamma * (1 / gamma)) with 1 by (field; lra).
    now apply Rpower_1.
  - assert (q = 0) by lra. subst q. now rewrite !pw_zero.
Qed.

Lemma pw_root (q gamma : R) : 0 <= q -> 0 < gamma -> pw (pw q (1 / gamma)) gamma = q.
Proof.
  intros Hq Hg.
  assert (E : gamma = 1 / (1 / gamma)) by (field; lra).
  rewrite E at 2. apply pw_inv; [assumption |].
  unfold Rdiv. rewrite Rmult_1_l. now apply Rinv_0_lt_compat.
Qed.

Lemma pw_cube (q : R) : 0 <= q -> q ^ 3 = pw q 3.
Proof.
  intros Hq. destruct (Rlt_dec 0 q) as [P | N].
  - unfold pw. rewrite Rltb_true by assumption.
    replace 3 with (INR 3) by (rewrite INR_IZR_INZ; reflexivity).
    now rewrite Rpower_pow.
  - assert (q = 0) by lra. subst q. rewrite pw_zero. ring.
Qed.

Lemma div_nonneg (a b : R) : 0 <= a -> 0 < b -> 0 <= a / b.
Proof.
  intros Ha Hb. unfold Rdiv. apply Rmult_le_pos; [assumption |].
  left. now apply Rinv_0_lt_compat.
Qed.

(** Powers of a negative base. *)

Lemma as_integer_fraction (y : R) : 0 < y < 1 -> as_integer y = None.
Proof.
  intros [H0 H1]. unfold as_integer.
  assert (E : up y = 1%Z) by (symmetry; apply tech_up; lra).
  rewrite E. cbn [Z.sub Z.add Z.opp Z.pos_sub].
  now rewrite Reqb_false by lra.
Qed.

Lemma fpow_negative_fraction (x y : R) :
  x < 0 -> 0 < y < 1 -> fpow x y = Failed NotARealNumber.
Proof.
  intros Hx Hy. unfold fpow.
  rewrite Rltb_false by lra. rewrite Reqb_false by lra.
  now rewrite as_integer_fraction.
Qed.

(** ** The simple polytrope *)

Section SimplePolytropeFacts.

Variables rho_nuclear_v p_nuclear_v : R.
Hypothesis rho_nuclear_pos : 0 < rho_nuclear_v.
Hypothesis p_nuclear_pos : 0 < p_nuclear_v.

Lemma eos_p_simple_value (rho_rest : R) :
  eos_p_simple rho_nuclear_v p_nuclear_v rho_rest
  = Returned (p_nuclear_v * (rho_rest / rho_nuclear_v) ^ 3).
Proof.
  unfold eos_p_simple. rewrite fdiv_ok by lra. cbn [bind].
  f_equal. ring.
Qed.

Lemma eos_rho_rest_simple_value (p : R) :
  0 <= p ->
  eos_rho_rest_simple rho_nuclear_v p_nuclear_v p
  = Returned (rho_nuclear_v * pw (p / p_nuclear_v) (1 / 3)).
Proof.
  intros Hp. unfold eos_rho_rest_simple. rewrite fdiv_ok by lra. cbn [bind].
  rewrite fpow_nonneg; [| now apply div_nonneg | lra]. cbn [bind].
  f_equal. ring.
Qed.

(** C5.  The simple polytrope, for [rho_rest >= 0] and [p >= 0]:
    the pressure is [p_nuclear (rho_rest / rho_nuclear)^3]; the rest density
    is [rho_nuclear] times the cube root of [p / p_nuclear] (the
    non-negative number whose cube is [p / p_nuclear]); the energy density
    is the rest density plus [p / 2], which is the internal-energy term
    [p / (Gamma - 1)] at [Gamma = 3], the exponent of the polytrope. *)
Theorem simple_polytrope_laws (rho_rest p : R) :
  0 <= rho_rest -> 0 <= p ->
  eos_p_simple rho_nuclear_v p_nuclear_v rho_rest
    = Returned (p_nuclear_v * (rho_rest / rho_nuclear_v) ^ 3)
  /\ (exists c : R,
        0 <= c /\ c ^ 3 = p / p_nuclear_v /\
        eos_rho_rest_simple rho_nuclear_v p_nuclear_v p
          = Returned (rho_nuclear_v * c) /\
        eos_rho_simple rho_nuclear_v p_nuclear_v p
          = Returned (rho_nuclear_v * c + p / (3 - 1)))
  /\ eos_rho_simple rho_nuclear_v p_nuclear_v p
     = (r <- eos_rho_rest_simple rho_nuclear_v p_nuclear_v p ;;
        Returned (r + p / 2)).
Proof.
  intros Hrho Hp. split; [apply eos_p_simple_value | split].
  - exists (pw (p / p_nuclear_v) (1 / 3)).
    assert (Hq : 0 <= p / p_nuclear_v) by now apply div_nonneg.
    split; [apply pw_nonneg | split; [| split]].
    + rewrite pw_cube by apply pw_nonneg.
      apply pw_root; [assumption | lra].
    + now apply eos_rho_rest_simple_value.
    + unfold eos_rho_simple. rewrite eos_rho_rest_simple_value by assumption.
      cbn [bind]. f_equal. field.
  - reflexivity.
Qed.

End SimplePolytropeFacts.

(** ** The piecewise polytrope *)

Lemma pressure_law_value (K rho_b gamma x : R) :
  0 < rho_b -> 0 < gamma -> 0 <= x ->
  pressure_law K rho_b gamma x = Returned (K * pw (x / rho_b) gamma).
Proof.
  intros Hb Hg Hx. unfold pressure_law.
  rewrite fdiv_ok by lra. cbn [bind].
  rewrite fpow_nonneg; [reflexivity | now apply div_nonneg | assumption].
Qed.

Lemma rest_density_law_value (p_b rho_b gamma p : R) :
  0 < p_b -> 0 < gamma -> 0 <= p ->
  rest_density_law p_b rho_b gamma p = Returned (pw (p / p_b) (1 / gamma) * rho_b).
Proof.
  intros Hb Hg Hp. unfold rest_density_law.
  rewrite fdiv_ok by lra. cbn [bind].
  rewrite fdiv_ok by lra. cbn [bind].
  rewrite fpow_nonneg; [reflexivity | now apply div_nonneg |].
  unfold Rdiv. rewrite Rmult_1_l. now apply Rinv_0_lt_compat.
Qed.

(** A segment's rest-density law undoes its pressure law. *)
Lemma rest_density_law_inverts (K rho_b gamma x : R) :
  0 < K -> 0 < rho_b -> 0 < gamma -> 0 <= x ->
  rest_density_law K rho_b gamma (K * pw (x / rho_b) gamma) = Returned x.
Proof.
  intros HK Hb Hg Hx.
  assert (Hq : 0 <= x / rho_b) by now apply div_nonneg.
  pose proof (pw_nonneg (x / rho_b) gamma) as Hw.
  rewrite rest_density_law_value; [| assumption | assumption |].
  - replace (K * pw (x / rho_b) gamma / K) with (pw (x / rho_b) gamma)
      by (field; lra).
    rewrite pw_inv by assumption. f_equal. field. lra.
  - apply Rmult_le_pos; lra.
Qed.

(** The four conditions of a piecewise call select one segment. *)
Lemma conditions_segment0 (a b0 b1 b2 : R) :
  b0 < b1 < b2 -> a < b0 ->
  pressure_conditions a b0 b1 b2 = [true; false; false; false].
Proof.
  intros [H1 H2] Ha. unfold pressure_conditions.
  rewrite (Rltb_true a b0), (Rgeb_false a b0), (Rgeb_false a b1),
    (Rgeb_false a b2) by lra.
  reflexivity.
Qed.

Lemma conditions_segment1 (a b0 b1 b2 : R) :
  b0 < b1 < b2 -> b0 <= a < b1 ->
  pressure_conditions a b0 b1 b2 = [false; true; false; false].
Proof.
  intros [H1 H2] Ha. unfold pressure_conditions.
  rewrite (Rltb_false a b0), (Rgeb_true a b0), (Rltb_true a b1),
    (Rgeb_false a b1), (Rgeb_false a b2) by lra.
  reflexivity.
Qed.

Lemma conditions_segment2 (a b0 b1 b2 : R) :
  b0 < b1 < b2 -> b1 <= a < b2 ->
  pressure_conditions a b0 b1 b2 = [false; false; true; false].
Proof.
  intros [H1 H2] Ha. unfold pressure_conditions.
  rewrite (Rltb_false a b0), (Rgeb_true a b0), (Rltb_false a b1),
    (Rgeb_true a b1), (Rltb_true a b2), (Rgeb_false a b2) by lra.
  reflexivity.
Qed.

Lemma conditions_segment3 (a b0 b1 b2 : R) :
  b0 < b1 < b2 -> b2 <= a ->
  pressure_conditions a b0 b1 b2 = [false; false; false; true].
Proof.
  intros [H1 H2] Ha. unfold pressure_conditions.
  rewrite (Rltb_false a b0), (Rgeb_true a b0), (Rltb_false a b1),
    (Rgeb_true a b1), (Rltb_false a b2), (Rgeb_true a b2) by lra.
  reflexivity.
Qed.

Lemma density_conditions_eq (rho0_v rho1_v rho2_v rho : R) :
  density_conditions rho0_v rho1_v rho2_v rho
  = pressure_conditions rho rho0_v rho1_v rho2_v.
Proof. reflexivity. Qed.

Lemma bind_Returned {A : Type} (c : outcome A) : (x <- c ;; Returned x) = c.
Proof. now destruct c. Qed.

(** Continuity of the terms the segment laws are made of. *)
Lemma Rpower_base_continuous (e x0 : R) :
  0 < x0 -> continuity_pt (fun x => Rpower x e) x0.
Proof.
  intros H. apply derivable_continuous_pt.
  exists (e * Rpower x0 (e - 1)). now apply derivable_pt_lim_power.
Qed.

Lemma ratio_continuous (B x0 : R) : continuity_pt (fun x => x / B) x0.
Proof.
  apply (continuity_pt_mult id (fct_cte (/ B))).
  - apply derivable_continuous_pt, derivable_pt_id.
  - apply continuity_pt_const. intros x y. reflexivity.
Qed.

Lemma power_term_continuous (A B e D x0 : R) :
  0 < B -> 0 < x0 ->
  continuity_pt (fun x => A * Rpower (x / B) e + D * x) x0.
Proof.
  intros HB Hx.
  apply (continuity_pt_plus
           (mult_real_fct A (comp (fun y => Rpower y e) (fun x => x / B)))
           (mult_real_fct D id)).
  - apply continuity_pt_scal. apply continuity_pt_comp.
    + apply ratio_continuous.
    + apply Rpower_base_continuous. now apply Rdiv_lt_0_compat.
  - apply continuity_pt_scal. apply derivable_continuous_pt, derivable_pt_id.
Qed.

(** A function that follows [f] just below [b] and [g] from [b] on is
    continuous at [b] when [f] and [g] are and agree there. *)
Lemma continuity_pt_glue (f g h : R -> R) (b d : R) :
  0 < d ->
  (forall x, b - d < x < b -> h x = f x) ->
  (forall x, b <= x < b + d -> h x = g x) ->
  f b = g b ->
  continuity_pt f b -> continuity_pt g b -> continuity_pt h b.
Proof.
  intros Hd Hl Hr Hb Cf Cg eps He.
  destruct (Cf eps He) as [a1 [Ha1 P1]].
  destruct (Cg eps He) as [a2 [Ha2 P2]].
  exists (Rmin d (Rmin a1 a2)). split.
  - apply Rmin_pos; [assumption | now apply Rmin_pos].
  - intros x [Dx Hx]. simpl in *. unfold Rdist in *.
    assert (Hxd : Rabs (x - b) < d)
      by (eapply Rlt_le_trans; [exact Hx | apply Rmin_l]).
    assert (Hx1 : Rabs (x - b) < a1).
    { eapply Rlt_le_trans; [exact Hx |].
      eapply Rle_trans; [apply Rmin_r | apply Rmin_l]. }
    assert (Hx2 : Rabs (x - b) < a2).
    { eapply Rlt_le_trans; [exact Hx |].
      eapply Rle_trans; [apply Rmin_r | apply Rmin_r]. }
    apply Rabs_def2 in Hxd.
    rewrite (Hr b) by lra.
    destruct (Rlt_dec x b) as [L | G].
    + rewrite (Hl x) by lra. rewrite <- Hb. apply P1. now split.
    + rewrite (Hr x) by lra. apply P2. now split.
Qed.

Lemma glue_power_terms (h : R -> R) (b d A1 B1 e1 D1 A2 B2 e2 D2 : R) :
  0 < d -> 0 < b -> 0 < B1 -> 0 < B2 ->
  (forall x, b - d < x < b -> h x = A1 * Rpower (x / B1) e1 + D1 * x) ->
  (forall x, b <= x < b + d -> h x = A2 * Rpower (x / B2) e2 + D2 * x) ->
  A1 * Rpower (b / B1) e1 + D1 * b = A2 * Rpower (b / B2) e2 + D2 * b ->
  continuity_pt h b.
Proof.
  intros Hd Hb HB1 HB2 Hl Hr E.
  apply (continuity_pt_glue (fun x => A1 * Rpower (x / B1) e1 + D1 * x)
                            (fun x => A2 * Rpower (x / B2) e2 + D2 * x) h b d);
    try assumption; now apply power_term_continuous.
Qed.

Lemma pw_Rpower (q e : R) : 0 < q -> pw q e = Rpower q e.
Proof. intros H. unfold pw. now rewrite Rltb_true. Qed.

Lemma Rpower_one (e : R) : Rpower 1 e = 1.
Proof. unfold Rpower. rewrite ln_1, Rmult_0_r. apply exp_0. Qed.

Section PiecewisePolytropeFacts.

Variables rho0_v rho1_v rho2_v : R.
Hypothesis rho0_pos : 0 < rho0_v.
Hypothesis rho_order : rho0_v < rho1_v < rho2_v.

Variables p1 gamma1 gamma2 gamma3 : R.
Hypothesis p1_pos : 0 < p1.
Hypothesis gamma1_gt : 1 < gamma1.
Hypothesis gamma2_gt : 1 < gamma2.
Hypothesis gamma3_gt : 1 < gamma3.

(** The pressures at the densities [rho0_v] and [rho2_v]. *)
Let P0 : R := p1 * pw (rho0_v / rho1_v) gamma1.
Let P2 : R := p1 * pw (rho2_v / rho1_v) gamma2.

Lemma gamma0_gt : 1 < gamma0.
Proof. unfold gamma0. lra. Qed.

Lemma pressure_p0_value : pressure_p0 rho0_v rho1_v p1 gamma1 = Returned P0.
Proof.
  unfold pressure_p0. rewrite fdiv_ok by lra. cbn [bind].
  rewrite fpow_nonneg; [reflexivity | apply div_nonneg; lra | lra].
Qed.

Lemma pressure_p2_value : pressure_p2 rho1_v rho2_v p1 gamma2 = Returned P2.
Proof.
  unfold pressure_p2. rewrite fdiv_ok by lra. cbn [bind].
  rewrite fpow_nonneg; [reflexivity | apply div_nonneg; lra | lra].
Qed.

Lemma ratio_lt_1 (a b : R) : 0 < b -> a < b -> a / b < 1.
Proof.
  intros Hb Hab. apply (Rmult_lt_reg_r b); [assumption |].
  unfold Rdiv. rewrite Rmult_assoc, Rinv_l by lra. lra.
Qed.

Lemma ratio_ge_1 (a b : R) : 0 < b -> b <= a -> 1 <= a / b.
Proof.
  intros Hb Hab. apply (Rmult_le_reg_r b); [assumption |].
  unfold Rdiv. rewrite Rmult_assoc, Rinv_l by lra. lra.
Qed.

Lemma ratio_le (a a' b : R) : 0 < b -> a <= a' -> a / b <= a' / b.
Proof.
  intros Hb Hab. unfold Rdiv. apply Rmult_le_compat_r; [| assumption].
  left. now apply Rinv_0_lt_compat.
Qed.

Lemma ratio_lt (a a' b : R) : 0 < b -> a < a' -> a / b < a' / b.
Proof.
  intros Hb Hab. unfold Rdiv. apply Rmult_lt_compat_r; [| assumption].
  now apply Rinv_0_lt_compat.
Qed.

Lemma pressure_order : 0 < P0 /\ P0 < p1 /\ p1 < P2.
Proof.
  unfold P0, P2. repeat split.
  - apply Rmult_lt_0_compat; [assumption |]. apply pw_pos.
    apply Rdiv_lt_0_compat; lra.
  - assert (pw (rho0_v / rho1_v) gamma1 < 1).
    { rewrite <- (pw_one gamma1). apply pw_lt; [lra |]. split.
      - apply div_nonneg; lra.
      - apply ratio_lt_1; lra. }
    nra.
  - assert (1 < pw (rho2_v / rho1_v) gamma2).
    { rewrite <- (pw_one gamma2) at 1. apply pw_lt; [lra |]. split; [lra |].
      apply (Rmult_lt_reg_r rho1_v); [lra |].
      unfold Rdiv. rewrite Rmult_assoc, Rinv_l by lra. lra. }
    nra.
Qed.

(** Each function is the law of the segment its argument falls in. *)

Ltac select_segment lem :=
  rewrite pressure_p0_value, pressure_p2_value; cbn [bind];
  try rewrite density_conditions_eq;
  rewrite lem; [| first [exact rho_order | split; apply pressure_order] | assumption];
  unfold np_piecewise, pressure_laws, rest_density_laws;
  cbn [piecewise_from]; apply bind_Returned.

Lemma eos_p_select0 (rho : R) :
  rho < rho0_v ->
  eos_p_polytropic rho0_v rho1_v rho2_v rho p1 gamma1 gamma2 gamma3
  = pressure_law P0 rho0_v gamma0 rho.
Proof. intros H. unfold eos_p_polytropic. select_segment conditions_segment0. Qed.

Lemma eos_p_select1 (rho : R) :
  rho0_v <= rho < rho1_v ->
  eos_p_polytropic rho0_v rho1_v rho2_v rho p1 gamma1 gamma2 gamma3
  = pressure_law p1 rho1_v gamma1 rho.
Proof. intros H. unfold eos_p_polytropic. select_segment conditions_segment1. Qed.

Lemma eos_p_select2 (rho : R) :
  rho1_v <= rho < rho2_v ->
  eos_p_polytropic rho0_v rho1_v rho2_v rho p1 gamma1 gamma2 gamma3
  = pressure_law p1 rho1_v gamma2 rho.
Proof. intros H. unfold eos_p_polytropic. select_segment conditions_segment2. Qed.

Lemma eos_p_select3 (rho : R) :
  rho2_v <= rho ->
  eos_p_polytropic rho0_v rho1_v rho2_v rho p1 gamma1 gamma2 gamma3
  = pressure_law P2 rho2_v gamma3 rho.
Proof. intros H. unfold eos_p_polytropic. select_segment conditions_segment3. Qed.

Lemma eos_rho_rest_select0 (p : R) :
  p < P0 ->
  eos_rho_rest_polytropic rho0_v rho1_v rho2_v p p1 gamma1 gamma2 gamma3
  = rest_density_law P0 rho0_v gamma0 p.
Proof. intros H. unfold eos_rho_rest_polytropic. select_segment conditions_segment0. Qed.

Lemma eos_rho_rest_select1 (p : R) :
  P0 <= p < p1 ->
  eos_rho_rest_polytropic rho0_v rho1_v rho2_v p p1 gamma1 gamma2 gamma3
  = rest_density_law p1 rho1_v gamma1 p.
Proof. intros H. unfold eos_rho_rest_polytropic. select_segment conditions_segment1. Qed.

Lemma eos_rho_rest_select2 (p : R) :
  p1 <= p < P2 ->
  eos_rho_rest_polytropic rho0_v rho1_v rho2_v p p1 gamma1 gamma2 gamma3
  = rest_density_law p1 rho1_v gamma2 p.
Proof. intros H. unfold eos_rho_rest_polytropic. select_segment conditions_segment2. Qed.

Lemma eos_rho_rest_select3 (p : R) :
  P2 <= p ->
  eos_rho_rest_polytropic rho0_v rho1_v rho2_v p p1 gamma1 gamma2 gamma3
  = rest_density_law P2 rho2_v gamma3 p.
Proof. intros H. unfold eos_rho_rest_polytropic. select_segment conditions_segment3. Qed.

(** The round trip through the piecewise polytrope. *)
Lemma polytropic_round_trip (x : R) :
  0 <= x ->
  (p <- eos_p_polytropic rho0_v rho1_v rho2_v x p1 gamma1 gamma2 gamma3 ;;
   eos_rho_rest_polytropic rho0_v rho1_v rho2_v p p1 gamma1 gamma2 gamma3)
  = Returned x.
Proof.
  intros Hx.
  destruct pressure_order as (HP0 & HP01 & HP12).
  pose proof gamma0_gt as Hg0.
  destruct (Rlt_dec x rho0_v) as [L0 | G0];
    [| destruct (Rlt_dec x rho1_v) as [L1 | G1];
       [| destruct (Rlt_dec x rho2_v) as [L2 | G2]]].
  - rewrite eos_p_select0 by assumption.
    rewrite pressure_law_value by lra. cbn [bind].
    assert (0 <= pw (x / rho0_v) gamma0 < 1).
    { split; [apply pw_nonneg |].
      rewrite <- (pw_one gamma0). apply pw_lt; [lra |]. split.
      - apply div_nonneg; lra.
      - apply ratio_lt_1; lra. }
    rewrite eos_rho_rest_select0 by nra.
    apply rest_density_law_inverts; lra.
  - rewrite eos_p_select1 by lra.
    rewrite pressure_law_value by lra. cbn [bind].
    assert (pw (rho0_v / rho1_v) gamma1 <= pw (x / rho1_v) gamma1 < 1).
    { split.
      - apply pw_le; [lra |]. split; [apply div_nonneg; lra |].
        apply ratio_le; lra.
      - rewrite <- (pw_one gamma1). apply pw_lt; [lra |]. split.
        + apply div_nonneg; lra.
        + apply ratio_lt_1; lra. }
    rewrite eos_rho_rest_select1 by (unfold P0; nra).
    apply rest_density_law_inverts; lra.
  - rewrite eos_p_select2 by lra.
    rewrite pressure_law_value by lra. cbn [bind].
    assert (1 <= pw (x / rho1_v) gamma2 < pw (rho2_v / rho1_v) gamma2).
    { split.
      - rewrite <- (pw_one gamma2) at 1. apply pw_le; [lra |].
        split; [lra |]. apply ratio_ge_1; lra.
      - apply pw_lt; [lra |]. split; [apply div_nonneg; lra |].
        apply ratio_lt; lra. }
    rewrite eos_rho_rest_select2 by (unfold P2; nra).
    apply rest_density_law_inverts; lra.
  - rewrite eos_p_select3 by lra.
    rewrite pressure_law_value by lra. cbn [bind].
    assert (1 <= pw (x / rho2_v) gamma3).
    { rewrite <- (pw_one gamma3) at 1. apply pw_le; [lra |].
      split; [lra |]. apply ratio_ge_1; lra. }
    rewrite eos_rho_rest_select3 by nra.
    apply rest_density_law_inverts; lra.
Qed.

(** The running constants of the energy density. *)
Let C1 : R := 1 + P0 / rho0_v * (1 / (gamma0 - 1) - 1 / (gamma1 - 1)).
Let C2 : R := C1 + p1 / rho1_v * (1 / (gamma1 - 1) - 1 / (gamma2 - 1)).
Let C3 : R := C2 + P2 / rho2_v * (1 / (gamma2 - 1) - 1 / (gamma3 - 1)).

Lemma next_constant_value (C p_b rho_b gamma gamma_next : R) :
  0 < rho_b -> 1 < gamma -> 1 < gamma_next ->
  next_constant C p_b rho_b gamma gamma_next
  = Returned (C + p_b / rho_b * (1 / (gamma - 1) - 1 / (gamma_next - 1))).
Proof.
  intros Hb Hg Hn. unfold next_constant.
  rewrite !fdiv_ok by lra. reflexivity.
Qed.

Lemma energy_constants_value :
  energy_constants rho0_v rho1_v rho2_v P0 p1 P2 gamma1 gamma2 gamma3
  = Returned (1, C1, C2, C3).
Proof.
  pose proof gamma0_gt.
  unfold energy_constants.
  rewrite next_constant_value by lra. cbn [bind].
  rewrite next_constant_value by lra. cbn [bind].
  rewrite next_constant_value by lra. reflexivity.
Qed.

Ltac select_energy lem :=
  unfold eos_rho_polytropic;
  rewrite pressure_p0_value, pressure_p2_value; cbn [bind];
  rewrite energy_constants_value; cbn [bind];
  rewrite lem; [| split; apply pressure_order | assumption];
  unfold np_piecewise, energy_density_laws, law;
  cbn [piecewise_from nth]; apply bind_Returned.

Lemma eos_rho_select0 (p : R) :
  p < P0 ->
  eos_rho_polytropic rho0_v rho1_v rho2_v p p1 gamma1 gamma2 gamma3
  = law 0 (energy_density_laws
             (fun p => eos_rho_rest_polytropic rho0_v rho1_v rho2_v p p1 gamma1 gamma2 gamma3)
             (1, C1, C2, C3) gamma1 gamma2 gamma3) p.
Proof. intros H. select_energy conditions_segment0. Qed.

Lemma eos_rho_select1 (p : R) :
  P0 <= p < p1 ->
  eos_rho_polytropic rho0_v rho1_v rho2_v p p1 gamma1 gamma2 gamma3
  = law 1 (energy_density_laws
             (fun p => eos_rho_rest_polytropic rho0_v rho1_v rho2_v p p1 gamma1 gamma2 gamma3)
             (1, C1, C2, C3) gamma1 gamma2 gamma3) p.
Proof. intros H. select_energy conditions_segment1. Qed.

Lemma eos_rho_select2 (p : R) :
  p1 <= p < P2 ->
  eos_rho_polytropic rho0_v rho1_v rho2_v p p1 gamma1 gamma2 gamma3
  = law 2 (energy_density_laws
             (fun p => eos_rho_rest_polytropic rho0_v rho1_v rho2_v p p1 gamma1 gamma2 gamma3)
             (1, C1, C2, C3) gamma1 gamma2 gamma3) p.
Proof. intros H. select_energy conditions_segment2. Qed.

Lemma eos_rho_select3 (p : R) :
  P2 <= p ->
  eos_rho_polytropic rho0_v rho1_v rho2_v p p1 gamma1 gamma2 gamma3
  = law 3 (energy_density_laws
             (fun p => eos_rho_rest_polytropic rho0_v rho1_v rho2_v p p1 gamma1 gamma2 gamma3)
             (1, C1, C2, C3) gamma1 gamma2 gamma3) p.
Proof. intros H. select_energy conditions_segment3. Qed.

(** The rest density at the three boundary pressures. *)
Lemma rest_density_at_P0 :
  eos_rho_rest_polytropic rho0_v rho1_v rho2_v P0 p1 gamma1 gamma2 gamma3
  = Returned rho0_v.
Proof.
  destruct pressure_order as (HP0 & HP01 & HP12).
  rewrite eos_rho_rest_select1 by lra.
  unfold P0. apply rest_density_law_inverts; lra.
Qed.

Lemma rest_density_at_p1 :
  eos_rho_rest_polytropic rho0_v rho1_v rho2_v p1 p1 gamma1 gamma2 gamma3
  = Returned rho1_v.
Proof.
  destruct pressure_order as (HP0 & HP01 & HP12).
  rewrite eos_rho_rest_select2 by lra.
  replace p1 with (p1 * pw (rho1_v / rho1_v) gamma2) at 2.
  - apply rest_density_law_inverts; lra.
  - replace (rho1_v / rho1_v) with 1 by (field; lra). rewrite pw_one. ring.
Qed.

Lemma rest_density_at_P2 :
  eos_rho_rest_polytropic rho0_v rho1_v rho2_v P2 p1 gamma1 gamma2 gamma3
  = Returned rho2_v.
Proof.
  destruct pressure_order as (HP0 & HP01 & HP12).
  rewrite eos_rho_rest_select3 by lra.
  replace P2 with (P2 * pw (rho2_v / rho2_v) gamma3) at 2.
  - apply rest_density_law_inverts; lra.
  - replace (rho2_v / rho2_v) with 1 by (field; lra). rewrite pw_one. ring.
Qed.

Lemma pressure_law_at_own_boundary (K rho_b gamma : R) :
  0 < rho_b -> 0 < gamma -> pressure_law K rho_b gamma rho_b = Returned K.
Proof.
  intros Hb Hg. rewrite pressure_law_value by lra.
  replace (rho_b / rho_b) with 1 by (field; lra). rewrite pw_one.
  f_equal. ring.
Qed.

Lemma energy_density_law_value (rho_rest : R -> outcome R) (C gamma p rho : R) :
  rho_rest p = Returned rho -> 1 < gamma ->
  energy_density_law rho_rest C gamma p = Returned (C * rho + p / (gamma - 1)).
Proof.
  intros Hr Hg. unfold energy_density_law. rewrite Hr. cbn [bind].
  rewrite fdiv_ok by lra. reflexivity.
Qed.

(** The functions as real functions on each segment. *)

Lemma eos_p_value0 (x : R) :
  0 < x < rho0_v ->
  value (eos_p_polytropic rho0_v rho1_v rho2_v x p1 gamma1 gamma2 gamma3)
  = P0 * Rpower (x / rho0_v) gamma0 + 0 * x.
Proof.
  intros H. pose proof gamma0_gt.
  rewrite eos_p_select0, pressure_law_value by lra. cbn [value].
  rewrite pw_Rpower by (apply Rdiv_lt_0_compat; lra). ring.
Qed.

Lemma eos_p_value1 (x : R) :
  rho0_v <= x < rho1_v ->
  value (eos_p_polytropic rho0_v rho1_v rho2_v x p1 gamma1 gamma2 gamma3)
  = p1 * Rpower (x / rho1_v) gamma1 + 0 * x.
Proof.
  intros H.
  rewrite eos_p_select1, pressure_law_value by lra. cbn [value].
  rewrite pw_Rpower by (apply Rdiv_lt_0_compat; lra). ring.
Qed.

Lemma eos_p_value2 (x : R) :
  rho1_v <= x < rho2_v ->
  value (eos_p_polytropic rho0_v rho1_v rho2_v x p1 gamma1 gamma2 gamma3)
  = p1 * Rpower (x / rho1_v) gamma2 + 0 * x.
Proof.
  intros H.
  rewrite eos_p_select2, pressure_law_value by lra. cbn [value].
  rewrite pw_Rpower by (apply Rdiv_lt_0_compat; lra). ring.
Qed.

Lemma eos_p_value3 (x : R) :
  rho2_v <= x ->
  value (eos_p_polytropic rho0_v rho1_v rho2_v x p1 gamma1 gamma2 gamma3)
  = P2 * Rpower (x / rho2_v) gamma3 + 0 * x.
Proof.
  intros H.
  rewrite eos_p_select3, pressure_law_value by lra. cbn [value].
  rewrite pw_Rpower by (apply Rdiv_lt_0_compat; lra). ring.
Qed.

Ltac energy_value sel rest_sel :=
  rewrite sel by lra; unfold energy_density_laws, law; cbn [nth];
  erewrite energy_density_law_value;
    [| rewrite rest_sel by lra; apply rest_density_law_value; lra | lra];
  cbn [value];
  rewrite pw_Rpower by (apply Rdiv_lt_0_compat; lra);
  field; lra.

Lemma eos_rho_value0 (p : R) :
  0 < p < P0 ->
  value (eos_rho_polytropic rho0_v rho1_v rho2_v p p1 gamma1 gamma2 gamma3)
  = 1 * rho0_v * Rpower (p / P0) (1 / gamma0) + 1 / (gamma0 - 1) * p.
Proof.
  intros H. pose proof gamma0_gt.
  destruct pressure_order as (HP0 & HP01 & HP12).
  energy_value eos_rho_select0 eos_rho_rest_select0.
Qed.

Lemma eos_rho_value1 (p : R) :
  P0 <= p < p1 ->
  value (eos_rho_polytropic rho0_v rho1_v rho2_v p p1 gamma1 gamma2 gamma3)
  = C1 * rho1_v * Rpower (p / p1) (1 / gamma1) + 1 / (gamma1 - 1) * p.
Proof.
  intros H. destruct pressure_order as (HP0 & HP01 & HP12).
  energy_value eos_rho_select1 eos_rho_rest_select1.
Qed.

Lemma eos_rho_value2 (p : R) :
  p1 <= p < P2 ->
  value (eos_rho_polytropic rho0_v rho1_v rho2_v p p1 gamma1 gamma2 gamma3)
  = C2 * rho1_v * Rpower (p / p1) (1 / gamma2) + 1 / (gamma2 - 1) * p.
Proof.
  intros H. destruct pressure_order as (HP0 & HP01 & HP12).
  energy_value eos_rho_select2 eos_rho_rest_select2.
Qed.

Lemma eos_rho_value3 (p : R) :
  P2 <= p ->
  value (eos_rho_polytropic rho0_v rho1_v rho2_v p p1 gamma1 gamma2 gamma3)
  = C3 * rho2_v * Rpower (p / P2) (1 / gamma3) + 1 / (gamma3 - 1) * p.
Proof.
  intros H. destruct pressure_order as (HP0 & HP01 & HP12).
  energy_value eos_rho_select3 eos_rho_rest_select3.
Qed.

Lemma Rpower_undo (q gamma : R) :
  0 < q -> 0 < gamma -> Rpower (Rpower q gamma) (1 / gamma) = q.
Proof.
  intros Hq Hg. rewrite Rpower_mult.
  replace (gamma * (1 / gamma)) with 1 by (field; lra).
  now apply Rpower_1.
Qed.

Lemma self_ratio (b e : R) : 0 < b -> Rpower (b / b) e = 1.
Proof.
  intros H. replace (b / b) with 1 by (field; lra). apply Rpower_one.
Qed.

Lemma P0_ratio : Rpower (P0 / p1) (1 / gamma1) = rho0_v / rho1_v.
Proof.
  unfold P0. rewrite pw_Rpower by (apply Rdiv_lt_0_compat; lra).
  replace (p1 * Rpower (rho0_v / rho1_v) gamma1 / p1)
    with (Rpower (rho0_v / rho1_v) gamma1) by (field; lra).
  apply Rpower_undo; [apply Rdiv_lt_0_compat; lra | lra].
Qed.

Lemma P2_ratio : Rpower (P2 / p1) (1 / gamma2) = rho2_v / rho1_v.
Proof.
  unfold P2. rewrite pw_Rpower by (apply Rdiv_lt_0_compat; lra).
  replace (p1 * Rpower (rho2_v / rho1_v) gamma2 / p1)
    with (Rpower (rho2_v / rho1_v) gamma2) by (field; lra).
  apply Rpower_undo; [apply Rdiv_lt_0_compat; lra | lra].
Qed.

(** The pressure is a continuous function of the density at the three
    boundaries. *)
Lemma eos_p_continuous_at_boundaries :
  let eos_p := fun rho =>
    value (eos_p_polytropic rho0_v rho1_v rho2_v rho p1 gamma1 gamma2 gamma3) in
  continuity_pt eos_p rho0_v /\ continuity_pt eos_p rho1_v
  /\ continuity_pt eos_p rho2_v.
Proof.
  cbv zeta. split; [| split].
  - pose proof (Rmin_l rho0_v (rho1_v - rho0_v)).
    pose proof (Rmin_r rho0_v (rho1_v - rho0_v)).
    eapply (glue_power_terms _ rho0_v (Rmin rho0_v (rho1_v - rho0_v)));
      [apply Rmin_pos; lra | lra | | |
       intros x Hx; apply eos_p_value0; lra |
       intros x Hx; apply eos_p_value1; lra | ]; try lra.
    rewrite self_ratio by lra. unfold P0.
    rewrite pw_Rpower by (apply Rdiv_lt_0_compat; lra). ring.
  - pose proof (Rmin_l (rho1_v - rho0_v) (rho2_v - rho1_v)).
    pose proof (Rmin_r (rho1_v - rho0_v) (rho2_v - rho1_v)).
    eapply (glue_power_terms _ rho1_v (Rmin (rho1_v - rho0_v) (rho2_v - rho1_v)));
      [apply Rmin_pos; lra | lra | | |
       intros x Hx; apply eos_p_value1; lra |
       intros x Hx; apply eos_p_value2; lra | ]; try lra.
    rewrite !self_ratio by lra. ring.
  - eapply (glue_power_terms _ rho2_v (rho2_v - rho1_v));
      [lra | lra | | |
       intros x Hx; apply eos_p_value2; lra |
       intros x Hx; apply eos_p_value3; lra | ]; try lra.
    rewrite self_ratio by lra. unfold P2.
    rewrite pw_Rpower by (apply Rdiv_lt_0_compat; lra). ring.
Qed.

(** The energy density is a continuous function of the pressure at the
    pressures of the three boundaries. *)
Lemma eos_rho_continuous_at_boundaries :
  let eos_rho := fun p =>
    value (eos_rho_polytropic rho0_v rho1_v rho2_v p p1 gamma1 gamma2 gamma3) in
  continuity_pt eos_rho P0 /\ continuity_pt eos_rho p1
  /\ continuity_pt eos_rho P2.
Proof.
  destruct pressure_order as (HP0 & HP01 & HP12).
  pose proof gamma0_gt as Hg0.
  cbv zeta. split; [| split].
  - pose proof (Rmin_l P0 (p1 - P0)).
    pose proof (Rmin_r P0 (p1 - P0)).
    eapply (glue_power_terms _ P0 (Rmin P0 (p1 - P0)));
      [apply Rmin_pos; lra | lra | | |
       intros x Hx; apply eos_rho_value0; lra |
       intros x Hx; apply eos_rho_value1; lra | ]; try lra.
    rewrite self_ratio by lra. rewrite P0_ratio.
    unfold C1. field. repeat split; lra.
  - pose proof (Rmin_l (p1 - P0) (P2 - p1)).
    pose proof (Rmin_r (p1 - P0) (P2 - p1)).
    eapply (glue_power_terms _ p1 (Rmin (p1 - P0) (P2 - p1)));
      [apply Rmin_pos; lra | lra | | |
       intros x Hx; apply eos_rho_value1; lra |
       intros x Hx; apply eos_rho_value2; lra | ]; try lra.
    rewrite !self_ratio by lra.
    unfold C2. field. repeat split; lra.
  - eapply (glue_power_terms _ P2 (P2 - p1));
      [lra | lra | | |
       intros x Hx; apply eos_rho_value2; lra |
       intros x Hx; apply eos_rho_value3; lra | ]; try lra.
    rewrite self_ratio by lra. rewrite P2_ratio.
    unfold C3. field. repeat split; lra.
Qed.

(** C3.  For valid parameters the pressure and the energy density of the
    piecewise polytrope are continuous at the three segment boundaries:
    at each of [rho0_v], [rho1_v], [rho2_v] the pressure law of the segment
    below and that of the segment above return the same value, which is
    the value of [eos_p_polytropic] there; and at the pressure of each
    boundary the energy-density law of the segment below and that of the
    segment above, with the constants [C_i] the code accumulates, return
    the same value, which is the value of [eos_rho_polytropic] there.
    Hence both functions are continuous at these points. *)
Theorem piecewise_polytrope_continuous_at_boundaries :
  exists p0 p2 c1 c2 c3 : R,
    pressure_p0 rho0_v rho1_v p1 gamma1 = Returned p0 /\
    pressure_p2 rho1_v rho2_v p1 gamma2 = Returned p2 /\
    energy_constants rho0_v rho1_v rho2_v p0 p1 p2 gamma1 gamma2 gamma3
      = Returned (1, c1, c2, c3) /\
    let eos_p := fun rho =>
      eos_p_polytropic rho0_v rho1_v rho2_v rho p1 gamma1 gamma2 gamma3 in
    let eos_rho := fun p =>
      eos_rho_polytropic rho0_v rho1_v rho2_v p p1 gamma1 gamma2 gamma3 in
    let pl := pressure_laws rho0_v rho1_v rho2_v p0 p1 p2 gamma1 gamma2 gamma3 in
    let el := energy_density_laws
                (fun p => eos_rho_rest_polytropic rho0_v rho1_v rho2_v p
                            p1 gamma1 gamma2 gamma3)
                (1, c1, c2, c3) gamma1 gamma2 gamma3 in
    (law 0 pl rho0_v = Returned p0 /\ law 1 pl rho0_v = Returned p0
     /\ eos_p rho0_v = Returned p0)
    /\ (law 1 pl rho1_v = Returned p1 /\ law 2 pl rho1_v = Returned p1
        /\ eos_p rho1_v = Returned p1)
    /\ (law 2 pl rho2_v = Returned p2 /\ law 3 pl rho2_v = Returned p2
        /\ eos_p rho2_v = Returned p2)
    /\ (exists e0 : R,
          law 0 el p0 = Returned e0 /\ law 1 el p0 = Returned e0
          /\ eos_rho p0 = Returned e0)
    /\ (exists e1 : R,
          law 1 el p1 = Returned e1 /\ law 2 el p1 = Returned e1
          /\ eos_rho p1 = Returned e1)
    /\ (exists e2 : R,
          law 2 el p2 = Returned e2 /\ law 3 el p2 = Returned e2
          /\ eos_rho p2 = Returned e2)
    /\ (continuity_pt (fun rho => value (eos_p rho)) rho0_v
        /\ continuity_pt (fun rho => value (eos_p rho)) rho1_v
        /\ continuity_pt (fun rho => value (eos_p rho)) rho2_v)
    /\ (continuity_pt (fun p => value (eos_rho p)) p0
        /\ continuity_pt (fun p => value (eos_rho p)) p1
        /\ continuity_pt (fun p => value (eos_rho p)) p2).
Proof.
  destruct pressure_order as (HP0 & HP01 & HP12).
  pose proof gamma0_gt as Hg0.
  exists P0, P2, C1, C2, C3.
  split; [apply pressure_p0_value |].
  split; [apply pressure_p2_value |].
  split; [apply energy_constants_value |].
  cbv zeta. unfold pressure_laws, energy_density_laws, law. cbn [nth].
  assert (L1 : pressure_law p1 rho1_v gamma1 rho0_v = Returned P0)
    by (rewrite pressure_law_value by lra; reflexivity).
  assert (L2 : pressure_law p1 rho1_v gamma2 rho2_v = Returned P2)
    by (rewrite pressure_law_value by lra; reflexivity).
  repeat split.
  - apply pressure_law_at_own_boundary; lra.
  - exact L1.
  - rewrite eos_p_select1 by lra. exact L1.
  - apply pressure_law_at_own_boundary; lra.
  - apply pressure_law_at_own_boundary; lra.
  - rewrite eos_p_select2 by lra. apply pressure_law_at_own_boundary; lra.
  - exact L2.
  - apply pressure_law_at_own_boundary; lra.
  - rewrite eos_p_select3 by lra. apply pressure_law_at_own_boundary; lra.
  - exists (1 * rho0_v + P0 / (gamma0 - 1)). repeat split.
    + apply energy_density_law_value; [apply rest_density_at_P0 | lra].
    + rewrite (energy_density_law_value _ _ _ _ rho0_v);
        [| apply rest_density_at_P0 | lra].
      f_equal. unfold C1. field. repeat split; lra.
    + rewrite eos_rho_select1 by lra.
      unfold energy_density_laws, law. cbn [nth].
      rewrite (energy_density_law_value _ _ _ _ rho0_v);
        [| apply rest_density_at_P0 | lra].
      f_equal. unfold C1. field. repeat split; lra.
  - exists (C1 * rho1_v + p1 / (gamma1 - 1)). repeat split.
    + apply energy_density_law_value; [apply rest_density_at_p1 | lra].
    + rewrite (energy_density_law_value _ _ _ _ rho1_v);
        [| apply rest_density_at_p1 | lra].
      f_equal. unfold C2. field. repeat split; lra.
    + rewrite eos_rho_select2 by lra.
      unfold energy_density_laws, law. cbn [nth].
      rewrite (energy_density_law_value _ _ _ _ rho1_v);
        [| apply rest_density_at_p1 | lra].
      f_equal. unfold C2. field. repeat split; lra.
  - exists (C2 * rho2_v + P2 / (gamma2 - 1)). repeat split.
    + apply energy_density_law_value; [apply rest_density_at_P2 | lra].
    + rewrite (energy_density_law_value _ _ _ _ rho2_v);
        [| apply rest_density_at_P2 | lra].
      f_equal. unfold C3. field. repeat split; lra.
    + rewrite eos_rho_select3 by lra.
      unfold energy_density_laws, law. cbn [nth].
      rewrite (energy_density_law_value _ _ _ _ rho2_v);
        [| apply rest_density_at_P2 | lra].
      f_equal. unfold C3. field. repeat split; lra.
  - apply eos_p_continuous_at_boundaries.
  - apply eos_p_continuous_at_boundaries.
  - apply eos_p_continuous_at_boundaries.
  - apply eos_rho_continuous_at_boundaries.
  - apply eos_rho_continuous_at_boundaries.
  - apply eos_rho_continuous_at_boundaries.
Qed.

(** The pressure at a density, with the segment it comes from. *)
Lemma eos_p_cases (x : R) :
  0 <= x ->
  exists v : R,
    eos_p_polytropic rho0_v rho1_v rho2_v x p1 gamma1 gamma2 gamma3 = Returned v
    /\ ((x < rho0_v /\ v = P0 * pw (x / rho0_v) gamma0 /\ 0 <= v < P0)
        \/ (rho0_v <= x < rho1_v /\ v = p1 * pw (x / rho1_v) gamma1 /\ P0 <= v < p1)
        \/ (rho1_v <= x < rho2_v /\ v = p1 * pw (x / rho1_v) gamma2 /\ p1 <= v < P2)
        \/ (rho2_v <= x /\ v = P2 * pw (x / rho2_v) gamma3 /\ P2 <= v)).
Proof.
  intros Hx.
  destruct pressure_order as (HP0 & HP01 & HP12).
  pose proof gamma0_gt as Hg0.
  destruct (Rlt_dec x rho0_v) as [L0 | G0];
    [| destruct (Rlt_dec x rho1_v) as [L1 | G1];
       [| destruct (Rlt_dec x rho2_v) as [L2 | G2]]].
  - exists (P0 * pw (x / rho0_v) gamma0). split.
    + rewrite eos_p_select0 by assumption. apply pressure_law_value; lra.
    + left. split; [assumption | split; [reflexivity |]].
      assert (0 <= pw (x / rho0_v) gamma0 < 1).
      { split; [apply pw_nonneg |].
        rewrite <- (pw_one gamma0). apply pw_lt; [lra |]. split.
        - apply div_nonneg; lra.
        - apply ratio_lt_1; lra. }
      nra.
  - exists (p1 * pw (x / rho1_v) gamma1). split.
    + rewrite eos_p_select1 by lra. apply pressure_law_value; lra.
    + right. left. split; [lra | split; [reflexivity |]].
      assert (pw (rho0_v / rho1_v) gamma1 <= pw (x / rho1_v) gamma1 < 1).
      { split.
        - apply pw_le; [lra |]. split; [apply div_nonneg; lra |].
          apply ratio_le; lra.
        - rewrite <- (pw_one gamma1). apply pw_lt; [lra |]. split.
          + apply div_nonneg; lra.
          + apply ratio_lt_1; lra. }
      unfold P0. nra.
  - exists (p1 * pw (x / rho1_v) gamma2). split.
    + rewrite eos_p_select2 by lra. apply pressure_law_value; lra.
    + right. right. left. split; [lra | split; [reflexivity |]].
      assert (1 <= pw (x / rho1_v) gamma2 < pw (rho2_v / rho1_v) gamma2).
      { split.
        - rewrite <- (pw_one gamma2) at 1. apply pw_le; [lra |].
          split; [lra |]. apply ratio_ge_1; lra.
        - apply pw_lt; [lra |]. split; [apply div_nonneg; lra |].
          apply ratio_lt; lra. }
      unfold P2. nra.
  - exists (P2 * pw (x / rho2_v) gamma3). split.
    + rewrite eos_p_select3 by lra. apply pressure_law_value; lra.
    + right. right. right. split; [lra | split; [reflexivity |]].
      assert (1 <= pw (x / rho2_v) gamma3).
      { rewrite <- (pw_one gamma3) at 1. apply pw_le; [lra |].
        split; [lra |]. apply ratio_ge_1; lra. }
      nra.
Qed.

Lemma scaled_pw_lt (K rho_b gamma a b : R) :
  0 < K -> 0 < rho_b -> 0 < gamma -> 0 <= a < b ->
  K * pw (a / rho_b) gamma < K * pw (b / rho_b) gamma.
Proof.
  intros HK Hb Hg Hab. apply Rmult_lt_compat_l; [assumption |].
  apply pw_lt; [assumption |]. split; [apply div_nonneg; lra |].
  apply ratio_lt; lra.
Qed.

Lemma eos_p_strictly_increasing (a b : R) :
  0 <= a < b ->
  exists pa pb : R,
    eos_p_polytropic rho0_v rho1_v rho2_v a p1 gamma1 gamma2 gamma3 = Returned pa
    /\ eos_p_polytropic rho0_v rho1_v rho2_v b p1 gamma1 gamma2 gamma3 = Returned pb
    /\ pa < pb.
Proof.
  intros [Ha Hab].
  destruct pressure_order as (HP0 & HP01 & HP12).
  pose proof gamma0_gt as Hg0.
  destruct (eos_p_cases a Ha) as (pa & Epa & Ca).
  destruct (eos_p_cases b) as (pb & Epb & Cb); [lra |].
  exists pa, pb. split; [exact Epa | split; [exact Epb |]].
  destruct Ca as [(Sa & Va & Ba) | [(Sa & Va & Ba) | [(Sa & Va & Ba) | (Sa & Va & Ba)]]];
    destruct Cb as [(Sb & Vb & Bb) | [(Sb & Vb & Bb) | [(Sb & Vb & Bb) | (Sb & Vb & Bb)]]];
    try lra; subst pa pb; apply scaled_pw_lt; lra.
Qed.

(** X8.  For valid parameters the pressure of the piecewise polytrope is
    defined at every density [>= 0], is 0 at the density 0 and grows
    strictly with the density, across the segment boundaries as well as
    inside the segments. *)
Theorem eos_p_polytropic_increasing (a b : R) :
  0 <= a < b ->
  exists pa pb : R,
    eos_p_polytropic rho0_v rho1_v rho2_v a p1 gamma1 gamma2 gamma3 = Returned pa
    /\ eos_p_polytropic rho0_v rho1_v rho2_v b p1 gamma1 gamma2 gamma3 = Returned pb
    /\ pa < pb
    /\ eos_p_polytropic rho0_v rho1_v rho2_v 0 p1 gamma1 gamma2 gamma3 = Returned 0.
Proof.
  intros Hab.
  pose proof gamma0_gt as Hg0.
  destruct (eos_p_strictly_increasing a b Hab) as (pa & pb & Epa & Epb & Hlt).
  exists pa, pb. split; [exact Epa | split; [exact Epb | split; [exact Hlt |]]].
  rewrite eos_p_select0 by lra. rewrite pressure_law_value by lra.
  f_equal. replace (0 / rho0_v) with 0 by (field; lra).
  rewrite pw_zero. ring.
Qed.

Lemma pw_lt_1 (a gamma : R) : 0 < gamma -> 0 <= a < 1 -> pw a gamma < 1.
Proof.
  intros Hg Ha. apply Rlt_le_trans with (pw 1 gamma).
  - now apply pw_lt.
  - rewrite pw_one. lra.
Qed.

Lemma pw_ge_1 (a gamma : R) : 0 < gamma -> 1 <= a -> 1 <= pw a gamma.
Proof.
  intros Hg Ha. apply Rle_trans with (pw 1 gamma).
  - rewrite pw_one. lra.
  - apply pw_le; [assumption | lra].
Qed.

(** The rest density at a pressure, with the segment it comes from. *)
Lemma eos_rho_rest_cases (p : R) :
  0 <= p ->
  exists rho : R,
    eos_rho_rest_polytropic rho0_v rho1_v rho2_v p p1 gamma1 gamma2 gamma3
    = Returned rho
    /\ ((p < P0 /\ rho = pw (p / P0) (1 / gamma0) * rho0_v /\ 0 <= rho < rho0_v)
        \/ (P0 <= p < p1 /\ rho = pw (p / p1) (1 / gamma1) * rho1_v
            /\ rho0_v <= rho < rho1_v)
        \/ (p1 <= p < P2 /\ rho = pw (p / p1) (1 / gamma2) * rho1_v
            /\ rho1_v <= rho < rho2_v)
        \/ (P2 <= p /\ rho = pw (p / P2) (1 / gamma3) * rho2_v /\ rho2_v <= rho)).
Proof.
  intros Hp.
  destruct pressure_order as (HP0 & HP01 & HP12).
  pose proof gamma0_gt as Hg0.
  assert (Hinv : forall g, 1 < g -> 0 < 1 / g).
  { intros g Hg. unfold Rdiv. rewrite Rmult_1_l. apply Rinv_0_lt_compat. lra. }
  assert (E0 : pw (P0 / p1) (1 / gamma1) = rho0_v / rho1_v).
  { unfold P0.
    replace (p1 * pw (rho0_v / rho1_v) gamma1 / p1)
      with (pw (rho0_v / rho1_v) gamma1) by (field; lra).
    apply pw_inv; [apply div_nonneg; lra | lra]. }
  assert (E2 : pw (P2 / p1) (1 / gamma2) = rho2_v / rho1_v).
  { unfold P2.
    replace (p1 * pw (rho2_v / rho1_v) gamma2 / p1)
      with (pw (rho2_v / rho1_v) gamma2) by (field; lra).
    apply pw_inv; [apply div_nonneg; lra | lra]. }
  destruct (Rlt_dec p P0) as [L0 | G0];
    [| destruct (Rlt_dec p p1) as [L1 | G1];
       [| destruct (Rlt_dec p P2) as [L2 | G2]]].
  - exists (pw (p / P0) (1 / gamma0) * rho0_v). split.
    + rewrite eos_rho_rest_select0 by assumption.
      apply rest_density_law_value; lra.
    + left. split; [assumption | split; [reflexivity |]].
      assert (0 <= pw (p / P0) (1 / gamma0) < 1).
      { split; [apply pw_nonneg |].
        apply pw_lt_1; [now apply Hinv |]. split.
        - apply div_nonneg; lra.
        - apply ratio_lt_1; lra. }
      nra.
  - exists (pw (p / p1) (1 / gamma1) * rho1_v). split.
    + rewrite eos_rho_rest_select1 by lra.
      apply rest_density_law_value; lra.
    + right. left. split; [lra | split; [reflexivity |]].
      assert (rho0_v / rho1_v <= pw (p / p1) (1 / gamma1) < 1).
      { split.
        - rewrite <- E0. apply pw_le; [now apply Hinv |].
          split; [apply div_nonneg; lra | apply ratio_le; lra].
        - apply pw_lt_1; [now apply Hinv |]. split.
          + apply div_nonneg; lra.
          + apply ratio_lt_1; lra. }
      assert (rho0_v / rho1_v * rho1_v = rho0_v) by (field; lra).
      nra.
  - exists (pw (p / p1) (1 / gamma2) * rho1_v). split.
    + rewrite eos_rho_rest_select2 by lra.
      apply rest_density_law_value; lra.
    + right. right. left. split; [lra | split; [reflexivity |]].
      assert (1 <= pw (p / p1) (1 / gamma2) < rho2_v / rho1_v).
      { split.
        - apply pw_ge_1; [now apply Hinv | apply ratio_ge_1; lra].
        - rewrite <- E2. apply pw_lt; [now apply Hinv |].
          split; [apply div_nonneg; lra | apply ratio_lt; lra]. }
      assert (rho2_v / rho1_v * rho1_v = rho2_v) by (field; lra).
      nra.
  - exists (pw (p / P2) (1 / gamma3) * rho2_v). split.
    + rewrite eos_rho_rest_select3 by lra.
      apply rest_density_law_value; lra.
    + right. right. right. split; [lra | split; [reflexivity |]].
      assert (1 <= pw (p / P2) (1 / gamma3)).
      { apply pw_ge_1; [now apply Hinv | apply ratio_ge_1; lra]. }
      nra.
Qed.

(** A segment's pressure law undoes its rest-density law. *)
Lemma pressure_law_inverts (K rho_b gamma p : R) :
  0 < K -> 0 < rho_b -> 0 < gamma -> 0 <= p ->
  pressure_law K rho_b gamma (pw (p / K) (1 / gamma) * rho_b) = Returned p.
Proof.
  intros HK Hb Hg Hp.
  assert (Hq : 0 <= p / K) by now apply div_nonneg.
  pose proof (pw_nonneg (p / K) (1 / gamma)) as Hw.
  rewrite pressure_law_value; [| assumption | assumption | nra].
  replace (pw (p / K) (1 / gamma) * rho_b / rho_b) with (pw (p / K) (1 / gamma))
    by (field; lra).
  rewrite pw_root by assumption. f_equal. field. lra.
Qed.

(** X9.  For valid parameters and every pressure [p >= 0] the pressure of
    the rest density of [p] is [p]: the piecewise functions are inverse of
    each other on this side too, the pressure thresholds [p0], [p1], [p2]
    being the pressures at the density boundaries. *)
Theorem polytropic_pressure_round_trip (p : R) :
  0 <= p ->
  (rho <- eos_rho_rest_polytropic rho0_v rho1_v rho2_v p p1 gamma1 gamma2 gamma3 ;;
   eos_p_polytropic rho0_v rho1_v rho2_v rho p1 gamma1 gamma2 gamma3)
  = Returned p.
Proof.
  intros Hp.
  destruct pressure_order as (HP0 & HP01 & HP12).
  pose proof gamma0_gt as Hg0.
  destruct (eos_rho_rest_cases p Hp) as (rho & Erho & C).
  rewrite Erho. cbn [bind].
  destruct C as [(S & V & B) | [(S & V & B) | [(S & V & B) | (S & V & B)]]].
  - rewrite eos_p_select0 by lra. subst rho. apply pressure_law_inverts; lra.
  - rewrite eos_p_select1 by lra. subst rho. apply pressure_law_inverts; lra.
  - rewrite eos_p_select2 by lra. subst rho. apply pressure_law_inverts; lra.
  - rewrite eos_p_select3 by lra. subst rho. apply pressure_law_inverts; lra.
Qed.

(** X10.  For valid parameters the energy density at the pressure of a
    density [rho >= 0] is [C_i * rho + p / (Gamma_i - 1)], with the constant
    and the index of the segment [rho] lies in: selecting the segment by
    the pressure thresholds, as [eos_rho_polytropic] does, gives the
    segment that selecting by the density boundaries gives. *)
Theorem energy_density_at_density :
  exists p0 p2 c1 c2 c3 : R,
    pressure_p0 rho0_v rho1_v p1 gamma1 = Returned p0 /\
    pressure_p2 rho1_v rho2_v p1 gamma2 = Returned p2 /\
    energy_constants rho0_v rho1_v rho2_v p0 p1 p2 gamma1 gamma2 gamma3
      = Returned (1, c1, c2, c3) /\
    forall rho : R, 0 <= rho ->
      exists p : R,
        eos_p_polytropic rho0_v rho1_v rho2_v rho p1 gamma1 gamma2 gamma3 = Returned p
        /\ (rho < rho0_v ->
            eos_rho_polytropic rho0_v rho1_v rho2_v p p1 gamma1 gamma2 gamma3
            = Returned (1 * rho + p / (gamma0 - 1)))
        /\ (rho0_v <= rho < rho1_v ->
            eos_rho_polytropic rho0_v rho1_v rho2_v p p1 gamma1 gamma2 gamma3
            = Returned (c1 * rho + p / (gamma1 - 1)))
        /\ (rho1_v <= rho < rho2_v ->
            eos_rho_polytropic rho0_v rho1_v rho2_v p p1 gamma1 gamma2 gamma3
            = Returned (c2 * rho + p / (gamma2 - 1)))
        /\ (rho2_v <= rho ->
            eos_rho_polytropic rho0_v rho1_v rho2_v p p1 gamma1 gamma2 gamma3
            = Returned (c3 * rho + p / (gamma3 - 1))).
Proof.
  destruct pressure_order as (HP0 & HP01 & HP12).
  pose proof gamma0_gt as Hg0.
  exists P0, P2, C1, C2, C3.
  split; [apply pressure_p0_value |].
  split; [apply pressure_p2_value |].
  split; [apply energy_constants_value |].
  intros rho Hrho.
  destruct (eos_p_cases rho Hrho) as (p & Ep & C).
  pose proof (polytropic_round_trip rho Hrho) as RT.
  rewrite Ep in RT. cbn [bind] in RT.
  exists p. split; [exact Ep |].
  repeat split; intros S;
    destruct C as [(S' & V & B) | [(S' & V & B) | [(S' & V & B) | (S' & V & B)]]];
    try (exfalso; lra).
  - rewrite eos_rho_select0 by lra. unfold energy_density_laws, law. cbn [nth].
    apply energy_density_law_value; [exact RT | lra].
  - rewrite eos_rho_select1 by lra. unfold energy_density_laws, law. cbn [nth].
    apply energy_density_law_value; [exact RT | lra].
  - rewrite eos_rho_select2 by lra. unfold energy_density_laws, law. cbn [nth].
    apply energy_density_law_value; [exact RT | lra].
  - rewrite eos_rho_select3 by lra. unfold energy_density_laws, law. cbn [nth].
    apply energy_density_law_value; [exact RT | lra].
Qed.

(** X11.  At a negative pressure the piecewise polytrope has no real rest
    density, for valid parameters: the crust law raises the negative ratio
    [p / p0] to the power [1 / gamma0], which is not an integer, so
    [eos_rho_rest_polytropic] and [eos_rho_polytropic] return no number. *)
Theorem polytropic_negative_pressure (p : R) :
  p < 0 ->
  eos_rho_rest_polytropic rho0_v rho1_v rho2_v p p1 gamma1 gamma2 gamma3
  = Failed NotARealNumber
  /\ eos_rho_polytropic rho0_v rho1_v rho2_v p p1 gamma1 gamma2 gamma3
     = Failed NotARealNumber.
Proof.
  intros Hp.
  destruct pressure_order as (HP0 & HP01 & HP12).
  assert (E : eos_rho_rest_polytropic rho0_v rho1_v rho2_v p p1 gamma1 gamma2 gamma3
              = Failed NotARealNumber).
  { rewrite eos_rho_rest_select0 by lra.
    unfold rest_density_law. rewrite fdiv_ok by lra. cbn [bind].
    unfold gamma0. rewrite fdiv_ok by lra. cbn [bind].
    rewrite fpow_negative_fraction; [reflexivity | | lra].
    assert (0 < - p / P0) by (apply Rdiv_lt_0_compat; lra).
    replace (p / P0) with (- (- p / P0)) by (field; lra).
    lra. }
  split; [exact E |].
  rewrite eos_rho_select0 by lra. unfold energy_density_laws, law. cbn [nth].
  unfold energy_density_law. now rewrite E.
Qed.

End PiecewisePolytropeFacts.

(** ** Round trips *)

Lemma simple_round_trip (rho_nuclear_v p_nuclear_v x : R) :
  0 < rho_nuclear_v -> 0 < p_nuclear_v -> 0 <= x ->
  (p <- eos_p_simple rho_nuclear_v p_nuclear_v x ;;
   eos_rho_rest_simple rho_nuclear_v p_nuclear_v p)
  = Returned x.
Proof.
  intros Hr Hp Hx.
  assert (Hq : 0 <= x / rho_nuclear_v) by now apply div_nonneg.
  rewrite eos_p_simple_value by assumption. cbn [bind].
  rewrite eos_rho_rest_simple_value; [| assumption |].
  - replace (p_nuclear_v * (x / rho_nuclear_v) ^ 3 / p_nuclear_v)
      with ((x / rho_nuclear_v) ^ 3) by (field; lra).
    rewrite pw_cube by assumption.
    rewrite pw_inv by lra. f_equal. field. lra.
  - apply Rmult_le_pos; [lra |]. apply pow_le. assumption.
Qed.

(** C2.  For every rest density [x >= 0] the rest density of the pressure of
    [x] is [x], for the simple polytrope and for the piecewise polytrope
    with any valid parameters ([p1 > 0], every [Gamma_i > 1], boundaries
    [0 < rho0 < rho1 < rho2]); on reals the round trip is exact. *)
Theorem eos_round_trip
        (rho_nuclear_v p_nuclear_v rho0_v rho1_v rho2_v p1 gamma1 gamma2 gamma3 x : R) :
  0 < rho_nuclear_v -> 0 < p_nuclear_v ->
  0 < rho0_v -> rho0_v < rho1_v < rho2_v ->
  0 < p1 -> 1 < gamma1 -> 1 < gamma2 -> 1 < gamma3 ->
  0 <= x ->
  (p <- eos_p_simple rho_nuclear_v p_nuclear_v x ;;
   eos_rho_rest_simple rho_nuclear_v p_nuclear_v p) = Returned x
  /\ (p <- eos_p_polytropic rho0_v rho1_v rho2_v x p1 gamma1 gamma2 gamma3 ;;
      eos_rho_rest_polytropic rho0_v rho1_v rho2_v p p1 gamma1 gamma2 gamma3)
     = Returned x.
Proof.
  intros Hn Hp H0 Ho H1 G1 G2 G3 Hx. split.
  - now apply simple_round_trip.
  - now apply polytropic_round_trip.
Qed.

(** ** The division in the pressure derivative *)

(** C9.  For [r > 0] the pressure derivative divides by [r] and by
    [r - 2m] with no guard on the second: the evaluation returns a value
    when [r <> 2m] and stops on the division by zero when [r = 2m].  Only
    [r <= 0] is guarded: there the result is [0] whatever [m] is. *)
Theorem dp_dr_division_unguarded (r p m rho : R) :
  0 < r ->
  (r <> 2 * m ->
   dp_dr r p m rho
   = Returned (- (rho + p) * (m + 4 * pi * r ^ 3 * p) / r / (r - 2 * m)))
  /\ (r = 2 * m -> dp_dr r p m rho = Failed ZeroDivisionError)
  /\ (forall r' : R, r' <= 0 -> dp_dr r' p m rho = Returned 0).
Proof.
  intros Hr. split; [| split].
  - intros Hm. unfold dp_dr. rewrite Rleb_false by assumption.
    rewrite fdiv_ok by lra. cbn [bind]. rewrite fdiv_ok by lra. reflexivity.
  - intros Hm. unfold dp_dr. rewrite Rleb_false by assumption.
    rewrite fdiv_ok by lra. cbn [bind].
    replace (r - 2 * m) with 0 by lra. apply fdiv_zero.
  - intros r' Hr'. unfold dp_dr. now rewrite Rleb_true.
Qed.

(** ** The integration loop *)

Section IntegrationFacts.

Variable ode_integrate : (R -> R * R -> outcome (R * R)) -> ode -> R -> outcome ode.
Variable f : R -> R * R -> outcome (R * R).
Variable step : R.

(** The loop follows the solver until a state that ends it, and returns
    every state it went through, the last one included. *)
Lemma tov_while_follows_trace (pre : list ode) :
  forall (last_state o : ode) (r_acc : list R) (pm_acc : list (R * R)) (fuel : nat),
    ode_success o = true ->
    solver_trace ode_integrate f step o (pre ++ [last_state]) ->
    Forall goes_on pre ->
    ode_success last_state = false \/ fst (ode_y last_state) <= 0 ->
    (length pre + 2 <= fuel)%nat ->
    tov_while ode_integrate fuel f step o r_acc pm_acc
    = Returned (last_state,
                r_acc ++ map ode_t (pre ++ [last_state]),
                pm_acc ++ map ode_y (pre ++ [last_state])).
Proof.
  induction pre as [| s pre IH]; intros last_state o r_acc pm_acc fuel Ho Htr Hpre Hend Hfuel.
  - cbn [app] in Htr. inversion Htr as [| o1 o2 rest Hstep Hrest]; subst.
    destruct fuel as [| [| fuel]]; cbn [length] in Hfuel; try lia.
    cbn [tov_while]. rewrite Ho, Hstep. cbn [bind app map].
    destruct (Rle_dec (fst (ode_y last_state)) 0) as [Hle | Hgt].
    + now rewrite Rleb_true.
    + rewrite Rleb_false by lra.
      destruct Hend as [Hfail | Hle]; [| lra].
      now rewrite Hfail.
  - cbn [app] in Htr. inversion Htr as [| o1 o2 rest Hstep Hrest]; subst.
    inversion Hpre as [| s' pre' [Hs Hp] Hpre']; subst.
    destruct fuel as [| fuel]; cbn [length] in Hfuel; try lia.
    cbn [tov_while]. rewrite Ho, Hstep. cbn [bind].
    rewrite Rleb_false by assumption.
    rewrite (IH last_state s _ _ fuel Hs Hrest Hpre' Hend) by lia.
    cbn [app map]. now rewrite <- !app_assoc.
Qed.

End IntegrationFacts.


(** C7.  No check is made on the central pressure.  For [p_central <= 0]
    the first integration step is taken as for any other value; when that
    step reports a pressure [<= 0], or a failure, the call returns normally
    the profile of two states, the centre and the state after the step. *)
Theorem nonpositive_central_pressure_is_integrated
        (ode_integrate : (R -> R * R -> outcome (R * R)) -> ode -> R -> outcome ode)
        (eos_rho : R -> outcome R) (step p_central : R) (s : ode) (fuel : nat) :
  p_central <= 0 ->
  ode_integrate (fun r p_and_m => tov_equations r p_and_m eos_rho)
                (initial_integrator p_central) (0 + step) = Returned s ->
  fst (ode_y s) <= 0 \/ ode_success s = false ->
  (2 <= fuel)%nat ->
  solve_tov_equations ode_integrate fuel p_central eos_rho step
  = Returned {| r_path := [0; ode_t s];
                p_path := [p_central; fst (ode_y s)];
                m_path := [0; snd (ode_y s)] |}.
Proof.
  intros _ Hstep Hend Hfuel.
  unfold solve_tov_equations, solve_tov_run.
  rewrite (tov_while_follows_trace ode_integrate _ step [] s).
  - reflexivity.
  - reflexivity.
  - cbn [app]. apply trace_cons; [exact Hstep | apply trace_nil].
  - constructor.
  - tauto.
  - cbn [length]. lia.
Qed.

(** ** The sweep over central densities *)

Lemma mass_nondecreasing_app (df : MR_table) (row : R * (R * R)) :
  mass_nondecreasing df ->
  df = [] \/ df_last_M df <= row_M row ->
  mass_nondecreasing (df ++ [row]).
Proof.
  induction df as [| a df IH]; intros Hs Hl.
  - exact I.
  - destruct df as [| b df].
    + cbn. split; [| exact I].
      destruct Hl as [Hl | Hl]; [discriminate | exact Hl].
    + cbn [app mass_nondecreasing] in *. destruct Hs as [Hab Hs].
      split; [exact Hab |]. apply IH; [exact Hs |].
      right. destruct Hl as [Hl | Hl]; [discriminate | exact Hl].
Qed.

Lemma mass_nondecreasing_last_two (pre : MR_table) (a b : R * (R * R)) :
  mass_nondecreasing (pre ++ [a; b]) -> row_M a <= row_M b.
Proof.
  induction pre as [| c pre IH]; intros Hs.
  - cbn in Hs. tauto.
  - apply IH. cbn [app mass_nondecreasing] in Hs.
    destruct (pre ++ [a; b]) eqn:E.
    + destruct pre; discriminate.
    + tauto.
Qed.

Section SamplingFacts.

Variable solve_tov : R -> (R -> outcome R) -> R -> outcome tov_profile.
Variables m_units_si M_sun : R.
Variables eos_p eos_rho : R -> outcome R.
Variables rho_central_log_step rho_central_stop : R.

Notation "'star'" := (star_M_R solve_tov m_units_si M_sun eos_p eos_rho).
Notation "'loop'" := (sample_while solve_tov m_units_si M_sun eos_p eos_rho
                                   rho_central_log_step rho_central_stop).

Lemma df_loc_set_cases (df : MR_table) (k : R) (v : R * R) :
  rows_of_stars star df -> star k = Returned v ->
  df_loc_set df k v = df \/ df_loc_set df k v = df ++ [(k, v)].
Proof.
  intros Hrows Hk. induction df as [| [k' v'] df IH].
  - right. reflexivity.
  - cbn [df_loc_set]. destruct (Req_dec_T k' k) as [E | N].
    + rewrite Reqb_true by assumption. left. subst k'.
      assert (Hv : star k = Returned v') by (apply Hrows; now left).
      rewrite Hk in Hv. now inversion Hv.
    + rewrite Reqb_false by assumption.
      destruct IH as [IH | IH].
      * intros k0 v0 Hin. apply Hrows. now right.
      * left. now rewrite IH.
      * right. now rewrite IH.
Qed.

Lemma rows_of_stars_app (df : MR_table) (k : R) (v : R * R) :
  rows_of_stars star df -> star k = Returned v -> rows_of_stars star (df ++ [(k, v)]).
Proof.
  intros Hrows Hk k0 v0 Hin. apply in_app_or in Hin.
  destruct Hin as [Hin | [Hin | []]].
  - now apply Hrows.
  - now inversion Hin; subst.
Qed.

(** With the early stop enabled, the sweep keeps the masses of the frame
    non-decreasing from row to row. *)
Lemma sample_while_nondecreasing (fuel : nat) :
  forall (MR_data : MR_table) (rho_central : R) (curve : MR_table),
    rows_of_stars star MR_data -> mass_nondecreasing MR_data ->
    loop true fuel MR_data rho_central = Returned curve ->
    mass_nondecreasing curve.
Proof.
  induction fuel as [| fuel IH]; intros MR_data rho_central curve Hrows Hs Hrun.
  - discriminate.
  - cbn [sample_while] in Hrun.
    destruct (Rltb rho_central rho_central_stop).
    + destruct (star rho_central) as [[M R_] | e |] eqn:Hstar;
        cbn [bind fst snd] in Hrun; try discriminate.
      cbn [andb] in Hrun.
      destruct ((0 <? length MR_data)%nat && Rltb M (df_last_M MR_data)) eqn:Hstop.
      * inversion Hrun; subst. exact Hs.
      * destruct (df_loc_set_cases MR_data rho_central (M, R_) Hrows Hstar) as [E | E];
          rewrite E in Hrun.
        -- eapply IH; eassumption.
        -- eapply IH; [| | exact Hrun].
           ++ now apply rows_of_stars_app.
           ++ apply mass_nondecreasing_app; [exact Hs |].
              apply andb_false_iff in Hstop. destruct Hstop as [Hlen | Hlt].
              ** left. destruct MR_data; [reflexivity | discriminate].
              ** right. unfold row_M. cbn [fst snd].
                 unfold Rltb in Hlt.
                 destruct (Rlt_dec M (df_last_M MR_data)); [discriminate | lra].
    + inversion Hrun; subst. exact Hs.
Qed.






(** What [.loc] leaves in the frame. *)
Lemma df_loc_set_In (df : MR_table) (k : R) (v : R * R) (k' : R) (v' : R * R) :
  In (k', v') (df_loc_set df k v) -> In (k', v') df \/ (k', v') = (k, v).
Proof.
  induction df as [| [k0 v0] df IH]; cbn [df_loc_set].
  - intros [H | []]. right. now symmetry.
  - destruct (Req_dec_T k0 k) as [E | N].
    + rewrite Reqb_true by assumption. intros [H | H].
      * right. subst k0. now symmetry.
      * left. now right.
    + rewrite Reqb_false by assumption. intros [H | H].
      * left. now left.
      * destruct (IH H) as [H' | H']; [left; now right | now right].
Qed.


(** The rows of a returned curve: labels below the bound, taken from the
    sequence of central densities, each with the star of its label. *)
Lemma sample_while_rows (start : R) (b : bool) (fuel : nat) :
  forall (n : nat) (MR_data curve : MR_table),
    (forall k v, In (k, v) MR_data ->
       k < rho_central_stop /\ star k = Returned v
       /\ exists i : nat, k = rho_central_at start rho_central_log_step i) ->
    loop b fuel MR_data (rho_central_at start rho_central_log_step n) = Returned curve ->
    forall k v, In (k, v) curve ->
      k < rho_central_stop /\ star k = Returned v
      /\ exists i : nat, k = rho_central_at start rho_central_log_step i.
Proof.
  induction fuel as [| fuel IH]; intros n MR_data curve Hinv Hrun.
  - discriminate.
  - cbn [sample_while] in Hrun.
    destruct (Rlt_dec (rho_central_at start rho_central_log_step n) rho_central_stop)
      as [Hlt | Hge].
    + rewrite Rltb_true in Hrun by assumption.
      destruct (star (rho_central_at start rho_central_log_step n))
        as [[M R_] | e |] eqn:Hstar; cbn [bind fst snd] in Hrun; try discriminate.
      destruct (b && (0 <? length MR_data)%nat && Rltb M (df_last_M MR_data)).
      * inversion Hrun; subst. exact Hinv.
      * change (rho_central_at start rho_central_log_step n
                + rho_central_at start rho_central_log_step n * rho_central_log_step)
          with (rho_central_at start rho_central_log_step (S n)) in Hrun.
        eapply (IH (S n)); [| exact Hrun].
        intros k v Hin. apply df_loc_set_In in Hin. destruct Hin as [Hin | Hin].
        -- now apply Hinv.
        -- inversion Hin; subst. repeat split; [assumption | assumption |].
           now exists n.
    + rewrite Rltb_false in Hrun by lra. inversion Hrun; subst. exact Hinv.
Qed.

(** The first row stays where it is. *)
Lemma sample_while_keeps_head (b : bool) (fuel : nat) :
  forall (k0 : R) (v0 : R * R) (rest curve : MR_table) (rho_central : R),
    star k0 = Returned v0 ->
    loop b fuel ((k0, v0) :: rest) rho_central = Returned curve ->
    exists rest' : MR_table, curve = (k0, v0) :: rest'.
Proof.
  induction fuel as [| fuel IH]; intros k0 v0 rest curve rho_central Hk0 Hrun.
  - discriminate.
  - cbn [sample_while] in Hrun.
    destruct (Rltb rho_central rho_central_stop).
    + destruct (star rho_central) as [[M R_] | e |] eqn:Hstar;
        cbn [bind fst snd] in Hrun; try discriminate.
      destruct (b && (0 <? length ((k0, v0) :: rest))%nat
                && Rltb M (df_last_M ((k0, v0) :: rest))).
      * inversion Hrun; subst. now exists rest.
      * cbn [df_loc_set] in Hrun.
        destruct (Req_dec_T k0 rho_central) as [E | N].
        -- rewrite Reqb_true in Hrun by assumption.
           subst k0. rewrite Hstar in Hk0. inversion Hk0; subst.
           eapply IH; [| exact Hrun]. exact Hstar.
        -- rewrite Reqb_false in Hrun by assumption.
           eapply IH; [| exact Hrun]. exact Hk0.
    + inversion Hrun; subst. now exists rest.
Qed.





End SamplingFacts.

(** C4.  With [stop_at_maximum_mass] enabled: in an iteration that finds the
    frame with at least one row and computes a mass strictly below the mass
    of the last row, the sweep stops and returns the frame as it is, without
    the new point; and in every curve the sweep returns, the mass of the
    last row is not less than the mass of the row before it. *)
Theorem early_stop_at_maximum_mass
        (solve_tov : R -> (R -> outcome R) -> R -> outcome tov_profile)
        (m_units_si M_sun : R) (eos_p eos_rho : R -> outcome R)
        (rho_central_start rho_central_log_step rho_central_stop : R) :
  (forall (fuel : nat) (MR_data : MR_table) (rho_central M R_ : R),
      MR_data <> [] ->
      rho_central < rho_central_stop ->
      star_M_R solve_tov m_units_si M_sun eos_p eos_rho rho_central = Returned (M, R_) ->
      M < df_last_M MR_data ->
      sample_while solve_tov m_units_si M_sun eos_p eos_rho
                   rho_central_log_step rho_central_stop true
                   (S fuel) MR_data rho_central
      = Returned MR_data)
  /\ (forall (fuel : nat) (curve pre : MR_table) (a b : R * (R * R)),
         sample_eos_mass_radius solve_tov m_units_si M_sun eos_p eos_rho
                                rho_central_start rho_central_log_step
                                rho_central_stop true fuel
         = Returned curve ->
         curve = pre ++ [a; b] ->
         row_M a <= row_M b).
Proof.
  split.
  - intros fuel MR_data rho_central M R_ Hne Hlt Hstar HM.
    cbn [sample_while]. rewrite Rltb_true by assumption.
    rewrite Hstar. cbn [bind fst snd andb].
    rewrite (Rltb_true M) by assumption.
    destruct MR_data; [contradiction | reflexivity].
  - intros fuel curve pre a b Hrun Hcurve.
    apply (mass_nondecreasing_last_two pre). rewrite <- Hcurve.
    unfold sample_eos_mass_radius in Hrun.
    eapply sample_while_nondecreasing; [| | exact Hrun].
    + intros k v [].
    + exact I.
Qed.

(** C8.  When [rho_central_stop <= rho_central_start] the sweep makes no
    iteration: whatever the equation of state and the solver would do, it
    returns the empty frame, and no fault. *)
Theorem empty_sweep
        (solve_tov : R -> (R -> outcome R) -> R -> outcome tov_profile)
        (m_units_si M_sun : R) (eos_p eos_rho : R -> outcome R)
        (rho_central_start rho_central_log_step rho_central_stop : R)
        (stop_at_maximum_mass : bool) (fuel : nat) :
  rho_central_stop <= rho_central_start ->
  sample_eos_mass_radius solve_tov m_units_si M_sun eos_p eos_rho
                         rho_central_start rho_central_log_step
                         rho_central_stop stop_at_maximum_mass (S fuel)
  = Returned [].
Proof.
  intros H. unfold sample_eos_mass_radius. cbn [sample_while].
  now rewrite Rltb_false.
Qed.


(** ** The theorems at concrete inputs *)

Ltac decide_reals :=
  repeat match goal with
  | |- context [Rltb ?a ?b] =>
      first [rewrite (Rltb_true a b) by lra | rewrite (Rltb_false a b) by lra]
  | |- context [Rleb ?a ?b] =>
      first [rewrite (Rleb_true a b) by lra | rewrite (Rleb_false a b) by lra]
  | |- context [Rgeb ?a ?b] =>
      first [rewrite (Rgeb_true a b) by lra | rewrite (Rgeb_false a b) by lra]
  | |- context [Reqb ?a ?b] =>
      first [rewrite (Reqb_true a b) by lra | rewrite (Reqb_false a b) by lra]
  end.

Ltac run_sweep :=
  unfold sample_eos_mass_radius;
  repeat (cbn [sample_while bind fst snd length Nat.ltb Nat.leb andb df_loc_set app];
          unfold star_M_R, star_of_mass, df_last_M;
          cbn [bind fst snd last_item last r_path m_path p_path];
          decide_reals).

Ltac run_solver :=
  unfold solve_tov_equations, solve_tov_run, initial_integrator, fixed_solver;
  repeat (cbn [tov_while bind fst snd ode_success ode_t ode_y app map profile_of];
          decide_reals).

(** The right-hand side at [r = 1] and at the centre, for a star of unit
    pressure whose energy density equals its pressure. *)
Lemma tov_equations_spec_witness :
  tov_equations 1 (1, 0) (fun p => Returned p)
  = Returned (- (1 + 1) * (0 + 4 * pi * 1 ^ 3 * 1) / (1 * (1 - 2 * 0)),
              4 * pi * 1 ^ 2 * 1)
  /\ tov_equations 0 (1, 0) (fun p => Returned p)
     = Returned (0, 4 * pi * 0 ^ 2 * 1).
Proof.
  split.
  - apply (tov_equations_spec (fun p => Returned p) 1 1 0 1); [reflexivity | lra | lra].
  - apply (tov_equations_spec (fun p => Returned p) 0 1 0 1); [reflexivity | lra].
Defined.

(** The round trip of the density 3, with all constants 1, the boundaries
    1, 2, 4 and all indices 2. *)
Lemma eos_round_trip_witness :
  (p <- eos_p_simple 1 1 3 ;; eos_rho_rest_simple 1 1 p) = Returned 3
  /\ (p <- eos_p_polytropic 1 2 4 3 1 2 2 2 ;;
      eos_rho_rest_polytropic 1 2 4 p 1 2 2 2) = Returned 3.
Proof.
  apply (eos_round_trip 1 1 1 2 4 1 2 2 2 3); lra.
Defined.

(** Continuity for the boundaries 1, 2, 4, the anchor pressure 1 and all
    indices 2. *)
Lemma piecewise_polytrope_continuous_witness :
  exists p0 p2 c1 c2 c3 : R,
    pressure_p0 1 2 1 2 = Returned p0 /\
    pressure_p2 2 4 1 2 = Returned p2 /\
    energy_constants 1 2 4 p0 1 p2 2 2 2 = Returned (1, c1, c2, c3) /\
    let eos_p := fun rho => eos_p_polytropic 1 2 4 rho 1 2 2 2 in
    let eos_rho := fun p => eos_rho_polytropic 1 2 4 p 1 2 2 2 in
    let pl := pressure_laws 1 2 4 p0 1 p2 2 2 2 in
    let el := energy_density_laws
                (fun p => eos_rho_rest_polytropic 1 2 4 p 1 2 2 2)
                (1, c1, c2, c3) 2 2 2 in
    (law 0 pl 1 = Returned p0 /\ law 1 pl 1 = Returned p0
     /\ eos_p 1 = Returned p0)
    /\ (law 1 pl 2 = Returned 1 /\ law 2 pl 2 = Returned 1
        /\ eos_p 2 = Returned 1)
    /\ (law 2 pl 4 = Returned p2 /\ law 3 pl 4 = Returned p2
        /\ eos_p 4 = Returned p2)
    /\ (exists e0 : R,
          law 0 el p0 = Returned e0 /\ law 1 el p0 = Returned e0
          /\ eos_rho p0 = Returned e0)
    /\ (exists e1 : R,
          law 1 el 1 = Returned e1 /\ law 2 el 1 = Returned e1
          /\ eos_rho 1 = Returned e1)
    /\ (exists e2 : R,
          law 2 el p2 = Returned e2 /\ law 3 el p2 = Returned e2
          /\ eos_rho p2 = Returned e2)
    /\ (continuity_pt (fun rho => value (eos_p rho)) 1
        /\ continuity_pt (fun rho => value (eos_p rho)) 2
        /\ continuity_pt (fun rho => value (eos_p rho)) 4)
    /\ (continuity_pt (fun p => value (eos_rho p)) p0
        /\ continuity_pt (fun p => value (eos_rho p)) 1
        /\ continuity_pt (fun p => value (eos_rho p)) p2).
Proof.
  apply (piecewise_polytrope_continuous_at_boundaries 1 2 4); lra.
Defined.

(** The simple polytrope with both constants 1, at the density 2 and the
    pressure 8. *)
Lemma simple_polytrope_laws_witness :
  eos_p_simple 1 1 2 = Returned (1 * (2 / 1) ^ 3)
  /\ (exists c : R,
        0 <= c /\ c ^ 3 = 8 / 1 /\
        eos_rho_rest_simple 1 1 8 = Returned (1 * c) /\
        eos_rho_simple 1 1 8 = Returned (1 * c + 8 / (3 - 1)))
  /\ eos_rho_simple 1 1 8
     = (r <- eos_rho_rest_simple 1 1 8 ;; Returned (r + 8 / 2)).
Proof.
  apply (simple_polytrope_laws 1 1); lra.
Defined.

(** At the pressure 1, with both constants 1, the energy density is
    [1 + 1/2]: the internal-energy term is not [p / (Gamma - 1)] with
    [Gamma = 2]. *)
Lemma simple_polytrope_energy_is_not_gamma_2 :
  exists rho_rest : R,
    eos_rho_rest_simple 1 1 1 = Returned rho_rest
    /\ eos_rho_simple 1 1 1 = Returned (rho_rest + 1 / 2)
    /\ eos_rho_simple 1 1 1 <> Returned (rho_rest + 1 / (2 - 1)).
Proof.
  exists (1 * pw (1 / 1) (1 / 3)).
  assert (E : eos_rho_rest_simple 1 1 1 = Returned (1 * pw (1 / 1) (1 / 3)))
    by (apply eos_rho_rest_simple_value; lra).
  split; [exact E |].
  unfold eos_rho_simple. rewrite E. cbn [bind].
  split; [reflexivity |].
  intros H. inversion H as [H']. lra.
Qed.

(** The pressure derivative at [r = 1] inside the mass 0 and inside the
    mass 1/2, and at the centre. *)
Lemma dp_dr_division_witness :
  dp_dr 1 1 0 1 = Returned (- (1 + 1) * (0 + 4 * pi * 1 ^ 3 * 1) / 1 / (1 - 2 * 0))
  /\ dp_dr 1 1 (1 / 2) 1 = Failed ZeroDivisionError
  /\ dp_dr 0 1 (1 / 2) 1 = Returned 0.
Proof.
  split; [| split].
  - apply (dp_dr_division_unguarded 1 1 0 1); lra.
  - apply (dp_dr_division_unguarded 1 1 (1 / 2) 1); lra.
  - apply (dp_dr_division_unguarded 1 1 (1 / 2) 1); lra.
Defined.



(** The sweep records a star whose integration failed at its first step
    as it records any other: radius and mass are read off the partial
    profile. *)
Lemma failed_star_is_recorded :
  sample_eos_mass_radius_with (fixed_solver false (1 / 2) (1 / 10)) 2 1 1
                              (fun rho => Returned rho) (eos_rho_simple 1 1)
                              1 1 2 true 2
  = Returned [(1, (1 / 10 * 1 / 1, 0 + 1 / 10))].
Proof.
  unfold sample_eos_mass_radius_with.
  repeat (run_sweep; run_solver). reflexivity.
Qed.

(** A central pressure of 0 with a solver that keeps the pressure at 0. *)
Lemma nonpositive_central_pressure_witness :
  solve_tov_equations (fixed_solver true 0 0) 2 0 (eos_rho_simple 1 1) (1 / 10)
  = Returned {| r_path := [0; 0 + 1 / 10]; p_path := [0; 0]; m_path := [0; 0] |}.
Proof.
  apply (nonpositive_central_pressure_is_integrated
           (fixed_solver true 0 0) (eos_rho_simple 1 1) (1 / 10) 0
           {| ode_t := 0 + 1 / 10; ode_y := (0, 0); ode_success := true |} 2).
  - lra.
  - reflexivity.
  - left. cbn [ode_y fst]. lra.
  - lia.
Defined.

(** With the central pressures 0 and -1 the call does not fail: it takes
    an integration step and returns a profile of two states. *)
Lemma degenerate_central_pressure_is_not_rejected :
  solve_tov_equations (fixed_solver true 0 0) 1 0 (eos_rho_simple 1 1) (1 / 10)
  = Returned {| r_path := [0; 0 + 1 / 10]; p_path := [0; 0]; m_path := [0; 0] |}
  /\ solve_tov_equations (fixed_solver true (-1) 0) 1 (-1) (eos_rho_simple 1 1) (1 / 10)
     = Returned {| r_path := [0; 0 + 1 / 10]; p_path := [-1; -1]; m_path := [0; 0] |}
  /\ forall e : fault,
       solve_tov_equations (fixed_solver true 0 0) 1 0 (eos_rho_simple 1 1) (1 / 10)
       <> Failed e.
Proof.
  assert (E : solve_tov_equations (fixed_solver true 0 0) 1 0 (eos_rho_simple 1 1) (1 / 10)
              = Returned {| r_path := [0; 0 + 1 / 10]; p_path := [0; 0]; m_path := [0; 0] |})
    by (run_solver; reflexivity).
  split; [exact E | split].
  - run_solver. reflexivity.
  - intros e. rewrite E. discriminate.
Qed.

(** A sweep from 1 to 5 that doubles the density, over stars of mass
    [p (4 - p)]: the masses are 3, 4 and then 0, and the curve ends at the
    mass 4. *)
Lemma early_stop_witness :
  sample_while (star_of_mass (fun p => p * (4 - p))) 1 1
               (fun rho => Returned rho) (fun p => Returned p) 1 5 true
               1 [(1, (3, 1)); (2, (4, 1))] 4
  = Returned [(1, (3, 1)); (2, (4, 1))]
  /\ exists a b : R * (R * R),
       sample_eos_mass_radius (star_of_mass (fun p => p * (4 - p))) 1 1
                              (fun rho => Returned rho) (fun p => Returned p)
                              1 1 5 true 3
       = Returned [a; b]
       /\ row_M a <= row_M b.
Proof.
  pose proof (early_stop_at_maximum_mass
                (star_of_mass (fun p => p * (4 - p))) 1 1
                (fun rho => Returned rho) (fun p => Returned p) 1 1 5)
    as [Hstop Hlast].
  split.
  - apply (Hstop 0%nat _ 4 (4 * (4 - 4) * 1 / 1) 1).
    + discriminate.
    + lra.
    + reflexivity.
    + cbn [df_last_M last fst snd]. lra.
  - eexists. eexists.
    assert (Hrun :
      sample_eos_mass_radius (star_of_mass (fun p => p * (4 - p))) 1 1
                             (fun rho => Returned rho) (fun p => Returned p)
                             1 1 5 true 3
      = Returned [(1, (1 * (4 - 1) * 1 / 1, 1));
                  (1 + 1 * 1, ((1 + 1 * 1) * (4 - (1 + 1 * 1)) * 1 / 1, 1))])
      by (run_sweep; reflexivity).
    split; [exact Hrun |].
    apply (Hlast 3%nat _ [] _ _ Hrun). reflexivity.
Defined.

(** A sweep asked to go from 2 to 1, with a star that cannot be solved. *)
Lemma empty_sweep_witness :
  sample_eos_mass_radius broken_star 1 1 (fun rho => Returned rho)
                         (fun p => Returned p) 2 (1 / 20) 1 true 1
  = Returned [].
Proof.
  apply (empty_sweep broken_star 1 1 (fun rho => Returned rho)
                     (fun p => Returned p) 2 (1 / 20) 1 true 0).
  lra.
Defined.




(** ** The notebook's own parameters are valid *)

Lemma sqrt_10_gt_3 : 3 < sqrt 10.
Proof. rewrite <- (sqrt_square 3) by lra. apply sqrt_lt_1; lra. Qed.

Lemma ten_to_14_7_bounds : 3 * 10 ^ 14 < Rpower 10 (147 / 10) < 10 ^ 15.
Proof.
  split.
  - apply Rlt_trans with (Rpower 10 (29 / 2)).
    + replace (29 / 2) with (INR 14 + / 2)
        by (rewrite INR_IZR_INZ; simpl; lra).
      rewrite Rpower_plus, Rpower_pow, Rpower_sqrt by lra.
      pose proof sqrt_10_gt_3. nra.
    + apply Rpower_lt; lra.
  - replace (10 ^ 15) with (Rpower 10 (INR 15)) by (apply Rpower_pow; lra).
    apply Rpower_lt; [lra |].
    rewrite INR_IZR_INZ. simpl. lra.
Qed.

Section UnitsFacts.

Variables rho_factor p_factor : R.
Hypothesis rho_factor_pos : 0 < rho_factor.
Hypothesis p_factor_pos : 0 < p_factor.

Lemma layer_boundaries_ordered :
  0 < rho0_value rho_factor
  /\ rho0_value rho_factor < rho1_value rho_factor < rho2_value rho_factor.
Proof.
  unfold rho0_value, rho_nuclear_value, rho1_value, rho2_value.
  destruct ten_to_14_7_bounds as [Hl Hu].
  repeat split; nra.
Qed.

Lemma polytropes_valid (name : string) (params : polytrope) :
  polytropes_get polytropes name = Returned params ->
  0 < p1_value p_factor params
  /\ 1 < poly_gamma1 params /\ 1 < poly_gamma2 params /\ 1 < poly_gamma3 params.
Proof.
  unfold polytropes. cbn [polytropes_get].
  assert (Hpow : forall e, 0 < Rpower 10 e * (1 / 10) * p_factor).
  { intros e. assert (0 < Rpower 10 e) by (unfold Rpower; apply exp_pos). nra. }
  destruct (String.eqb "SLy" name); [| destruct (String.eqb "GS1" name)];
    intros H; inversion H; subst; unfold p1_value;
    cbn [poly_p1 poly_gamma1 poly_gamma2 poly_gamma3];
    repeat split; try apply Hpow; lra.
Qed.

(** The pressure of every equation of state of the table is continuous at
    the three layer boundaries. *)
Lemma notebook_pressure_continuous (name : string)
      (eos_p eos_rho : R -> outcome R) :
  make_polytrope_eos_p_and_rho rho_factor p_factor name = Returned (eos_p, eos_rho) ->
  continuity_pt (fun rho => value (eos_p rho)) (rho0_value rho_factor)
  /\ continuity_pt (fun rho => value (eos_p rho)) (rho1_value rho_factor)
  /\ continuity_pt (fun rho => value (eos_p rho)) (rho2_value rho_factor).
Proof.
  unfold make_polytrope_eos_p_and_rho.
  destruct (polytropes_get polytropes name) as [params | e |] eqn:Hget;
    cbn [bind]; intros H; inversion H; subst.
  destruct (polytropes_valid name params Hget) as (Hp & H1 & H2 & H3).
  destruct layer_boundaries_ordered as [H0 Ho].
  now apply eos_p_continuous_at_boundaries.
Qed.

End UnitsFacts.

(** ** Binary floating point *)

(** On binary64 numbers a positive step below the rounding unit leaves the
    central density where it is: the reading of the floats as reals is an
    idealisation for the progress of the sweep. *)
Module BinaryFloatFacts.
Import Floats.
#[local] Open Scope float_scope.

Lemma tiny_step_is_absorbed :
  (0 <? 0x1p-60) = true /\ BinaryFloat.next_rho_central 1 0x1p-60 = 1.
Proof. split; reflexivity. Qed.

End BinaryFloatFacts.

(** ** More on the integration loop *)

Section IntegrationRuns.

Variable ode_integrate : (R -> R * R -> outcome (R * R)) -> ode -> R -> outcome ode.
Variable f : R -> R * R -> outcome (R * R).
Variable step : R.

(** Every run that returns went through a trace of solver states, all but
    the last one succeeded with a positive pressure, and the last one ends
    the loop. *)
Lemma tov_while_returns_trace (fuel : nat) :
  forall (o : ode) (r_acc : list R) (pm_acc : list (R * R))
         (res : ode * list R * list (R * R)),
    ode_success o = true ->
    tov_while ode_integrate fuel f step o r_acc pm_acc = Returned res ->
    exists (pre : list ode) (last_state : ode),
      solver_trace ode_integrate f step o (pre ++ [last_state])
      /\ Forall goes_on pre
      /\ (ode_success last_state = false \/ fst (ode_y last_state) <= 0)
      /\ res = (last_state,
                r_acc ++ map ode_t (pre ++ [last_state]),
                pm_acc ++ map ode_y (pre ++ [last_state])).
Proof.
  induction fuel as [| fuel IH]; intros o r_acc pm_acc res Ho Hrun.
  - discriminate.
  - cbn [tov_while] in Hrun. rewrite Ho in Hrun.
    destruct (ode_integrate f o (ode_t o + step)) as [o' | e |] eqn:Hstep;
      cbn [bind] in Hrun; try discriminate.
    destruct (Rle_dec (fst (ode_y o')) 0) as [Hle | Hgt].
    + rewrite Rleb_true in Hrun by assumption. inversion Hrun; subst.
      exists [], o'. cbn [app map]. repeat split.
      * apply trace_cons; [exact Hstep | apply trace_nil].
      * constructor.
      * now right.
    + rewrite Rleb_false in Hrun by lra.
      destruct (ode_success o') eqn:Ho'.
      * destruct (IH o' _ _ res Ho' Hrun) as (pre & last_state & Htr & Hpre & Hend & Hres).
        exists (o' :: pre), last_state. cbn [app map]. repeat split.
        -- apply trace_cons; assumption.
        -- constructor; [split; [assumption | lra] | assumption].
        -- exact Hend.
        -- rewrite Hres. now rewrite <- !app_assoc.
      * destruct fuel as [| fuel]; [discriminate |].
        cbn [tov_while] in Hrun. rewrite Ho' in Hrun. inversion Hrun; subst.
        exists [], o'. cbn [app map]. repeat split.
        -- apply trace_cons; [exact Hstep | apply trace_nil].
        -- constructor.
        -- now left.
Qed.

(** The radii along a trace whose successful states reached the radius
    they were asked for. *)
Lemma trace_radii (states : list ode) :
  forall (o : ode) (k i : nat),
    (forall o0 t1 o1, ode_integrate f o0 t1 = Returned o1 ->
                      ode_success o1 = true -> ode_t o1 = t1) ->
    ode_t o = INR k * step ->
    solver_trace ode_integrate f step o states ->
    (i < length states)%nat ->
    (forall j : nat, (j <= i)%nat -> ode_success (nth j states o) = true) ->
    nth i (map ode_t states) 0 = INR (S (k + i)) * step.
Proof.
  induction states as [| s states IH]; intros o k i Hreach Ho Htr Hi Hok.
  - cbn in Hi. lia.
  - inversion Htr as [| o0 o1 rest Hstep Hrest]; subst.
    assert (Hs : ode_success s = true) by (apply (Hok 0%nat); lia).
    assert (Hts : ode_t s = INR (S k) * step).
    { rewrite (Hreach o _ s Hstep Hs), Ho, S_INR. ring. }
    destruct i as [| i].
    + cbn [map nth]. now rewrite Nat.add_0_r.
    + cbn [map nth].
      rewrite (IH s (S k) i Hreach Hts Hrest).
      * now replace (S k + i)%nat with (k + S i)%nat by lia.
      * cbn [length] in Hi. lia.
      * intros j Hj. specialize (Hok (S j)). cbn [nth] in Hok.
        rewrite (nth_indep states s o); [apply Hok; lia |].
        cbn [length] in Hi. lia.
Qed.

End IntegrationRuns.

(** X1.  The integration stops at the first state whose pressure is not
    positive: when the solver's states all succeed with a positive pressure
    up to one that reports a pressure [<= 0], the call returns the centre
    followed by all these states, the last one included, and takes no
    further step. *)
Theorem surface_ends_integration
        (ode_integrate : (R -> R * R -> outcome (R * R)) -> ode -> R -> outcome ode)
        (eos_rho : R -> outcome R) (step p_central : R)
        (pre : list ode) (surface : ode) (fuel : nat) :
  solver_trace ode_integrate (fun r p_and_m => tov_equations r p_and_m eos_rho)
               step (initial_integrator p_central) (pre ++ [surface]) ->
  Forall goes_on pre ->
  fst (ode_y surface) <= 0 ->
  (length pre + 2 <= fuel)%nat ->
  solve_tov_equations ode_integrate fuel p_central eos_rho step
  = Returned {| r_path := 0 :: map ode_t (pre ++ [surface]);
                p_path := p_central :: map (fun s => fst (ode_y s)) (pre ++ [surface]);
                m_path := 0 :: map (fun s => snd (ode_y s)) (pre ++ [surface]) |}.
Proof.
  intros Htr Hpre Hsurf Hfuel.
  unfold solve_tov_equations, solve_tov_run.
  rewrite (tov_while_follows_trace ode_integrate _ step pre surface); auto.
  cbn [bind fst snd]. unfold profile_of. cbn [map fst snd app].
  now rewrite !map_map.
Qed.

(** X2.  Every profile the integration returns is the centre
    [(0, p_central, 0)] followed by at least one solver state, each obtained
    from the one before by a step of [step]; every state but the last
    succeeded with a positive pressure, and the last one is a failed step or
    has a pressure [<= 0].  So the three arrays have the same length, at
    least 2, and no pressure between the first and the last is [<= 0]. *)
Theorem returned_profile_structure
        (ode_integrate : (R -> R * R -> outcome (R * R)) -> ode -> R -> outcome ode)
        (eos_rho : R -> outcome R) (step p_central : R)
        (fuel : nat) (prof : tov_profile) :
  solve_tov_equations ode_integrate fuel p_central eos_rho step = Returned prof ->
  (exists (pre : list ode) (last_state : ode),
      solver_trace ode_integrate (fun r p_and_m => tov_equations r p_and_m eos_rho)
                   step (initial_integrator p_central) (pre ++ [last_state])
      /\ Forall goes_on pre
      /\ (ode_success last_state = false \/ fst (ode_y last_state) <= 0)
      /\ r_path prof = 0 :: map ode_t (pre ++ [last_state])
      /\ p_path prof = p_central :: map (fun s => fst (ode_y s)) (pre ++ [last_state])
      /\ m_path prof = 0 :: map (fun s => snd (ode_y s)) (pre ++ [last_state]))
  /\ (2 <= length (r_path prof))%nat
  /\ length (p_path prof) = length (r_path prof)
  /\ length (m_path prof) = length (r_path prof).
Proof.
  intros Hrun. unfold solve_tov_equations in Hrun.
  destruct (solve_tov_run ode_integrate fuel p_central eos_rho step)
    as [res | e |] eqn:Hres; cbn [bind] in Hrun; try discriminate.
  inversion Hrun; subst. unfold solve_tov_run in Hres.
  destruct (tov_while_returns_trace ode_integrate _ step fuel
              (initial_integrator p_central) _ _ res eq_refl Hres)
    as (pre & last_state & Htr & Hpre & Hend & Eres).
  subst res. cbn [fst snd profile_of r_path p_path m_path app map].
  rewrite !map_map. split.
  - exists pre, last_state. repeat split; assumption.
  - cbn [length]. rewrite !length_map, !length_app. cbn [length].
    repeat split; lia.
Qed.

(** X3.  With a solver whose successful steps reach the radius they were
    asked for, the recorded radii are the multiples of [step]: entry [i] of
    [r_path] is [i * step], for every entry before the last, and for the
    last too when the last step succeeded. *)
Theorem radii_are_multiples_of_step
        (ode_integrate : (R -> R * R -> outcome (R * R)) -> ode -> R -> outcome ode)
        (eos_rho : R -> outcome R) (step p_central : R)
        (fuel : nat) (final : ode) (r : list R) (pm : list (R * R)) :
  (forall f o0 t1 o1, ode_integrate f o0 t1 = Returned o1 ->
                      ode_success o1 = true -> ode_t o1 = t1) ->
  solve_tov_run ode_integrate fuel p_central eos_rho step = Returned (final, r, pm) ->
  (forall i : nat, (S i < length r)%nat -> nth i r 0 = INR i * step)
  /\ (ode_success final = true ->
      nth (length r - 1) r 0 = INR (length r - 1) * step).
Proof.
  intros Hreach Hrun. unfold solve_tov_run in Hrun.
  destruct (tov_while_returns_trace ode_integrate _ step fuel
              (initial_integrator p_central) _ _ _ eq_refl Hrun)
    as (pre & last_state & Htr & Hpre & Hend & Eres).
  inversion Eres; subst. clear Eres.
  assert (Hpre' : forall j, (j < length pre)%nat ->
             ode_success (nth j (pre ++ [last_state]) (initial_integrator p_central)) = true).
  { intros j Hj. rewrite app_nth1 by assumption.
    rewrite Forall_forall in Hpre. apply Hpre. now apply nth_In. }
  assert (Hradius : forall i, (i < length (pre ++ [last_state]))%nat ->
             (forall j, (j <= i)%nat ->
                ode_success (nth j (pre ++ [last_state]) (initial_integrator p_central)) = true) ->
             nth (S i) ([0] ++ map ode_t (pre ++ [last_state])) 0 = INR (S i) * step).
  { intros i Hi Hok. cbn [app nth].
    rewrite (trace_radii ode_integrate
               (fun r p_and_m => tov_equations r p_and_m eos_rho) step
               _ (initial_integrator p_central) 0 i);
      auto.
    - intros o0 t1 o1. apply Hreach.
    - cbn. ring. }
  split.
  - intros i Hi. destruct i as [| i].
    + cbn. ring.
    + cbn [app length] in Hi. rewrite length_map, length_app in Hi. cbn [length] in Hi.
      apply Hradius.
      * rewrite length_app. cbn [length]. lia.
      * intros j Hj. apply Hpre'. lia.
  - intros Hfinal. cbn [app length]. rewrite length_map, length_app. cbn [length].
    replace (S (length pre + 1) - 1)%nat with (S (length pre)) by lia.
    apply Hradius.
    + rewrite length_app. cbn [length]. lia.
    + intros j Hj. destruct (Nat.eq_dec j (length pre)) as [E | N].
      * subst j. rewrite app_nth2 by lia. rewrite Nat.sub_diag. exact Hfinal.
      * apply Hpre'. lia.
Qed.

(** ** More on the right-hand side and the simple polytrope *)

(** X4.  Outside its own Schwarzschild radius the pressure does not grow
    outward: for [0 < r], [2m < r] and non-negative mass, pressure and
    energy density, the right-hand side returns a pressure derivative
    [<= 0] and a mass derivative [>= 0].  At [r = 0] both derivatives are 0
    whatever the state is. *)
Theorem pressure_decreases_outward (eos_rho : R -> outcome R) (r p m rho : R) :
  eos_rho p = Returned rho ->
  (0 < r -> 2 * m < r -> 0 <= m -> 0 <= p -> 0 <= rho ->
   exists dp dm : R,
     tov_equations r (p, m) eos_rho = Returned (dp, dm) /\ dp <= 0 /\ 0 <= dm)
  /\ tov_equations 0 (p, m) eos_rho = Returned (0, 0).
Proof.
  intros Hrho. split.
  - intros Hr Hm Hm0 Hp Hrho0.
    unfold tov_equations, dp_dr, dm_dr. cbn [fst snd].
    rewrite Hrho. cbn [bind].
    rewrite Rleb_false by assumption.
    rewrite fdiv_ok by lra. cbn [bind]. rewrite fdiv_ok by lra. cbn [bind].
    pose proof PI_RGT_0 as Hpi. unfold pi.
    assert (Hr3 : 0 < r ^ 3) by (apply pow_lt; assumption).
    assert (Hr2 : 0 < r ^ 2) by (apply pow_lt; assumption).
    assert (HN : 0 <= (rho + p) * (m + 4 * PI * r ^ 3 * p)).
    { apply Rmult_le_pos; [lra |].
      assert (0 <= 4 * PI * r ^ 3 * p)
        by (apply Rmult_le_pos; [apply Rmult_le_pos |]; lra).
      lra. }
    eexists. eexists. split; [reflexivity | split].
    + assert (Hq : 0 <= (rho + p) * (m + 4 * PI * r ^ 3 * p) / r / (r - 2 * m)).
      { apply div_nonneg; [| lra]. apply div_nonneg; assumption. }
      replace (- (rho + p) * (m + 4 * PI * r ^ 3 * p) / r / (r - 2 * m))
        with (- ((rho + p) * (m + 4 * PI * r ^ 3 * p) / r / (r - 2 * m)))
        by (field; lra).
      lra.
    + apply Rmult_le_pos; [apply Rmult_le_pos |]; lra.
  - unfold tov_equations, dp_dr, dm_dr. cbn [fst snd].
    rewrite Hrho. cbn [bind]. rewrite Rleb_true by lra. cbn [bind].
    do 2 f_equal. ring.
Qed.

(** X5.  At a negative pressure the simple polytrope has no real rest
    density (the cube root is taken as a power [1/3] of a negative base):
    [eos_rho_rest_simple] and [eos_rho_simple] return no number there, and
    neither does the right-hand side of the TOV equations built on them,
    at any radius and mass. *)
Theorem simple_polytrope_negative_pressure
        (rho_nuclear_v p_nuclear_v p : R) :
  0 < p_nuclear_v -> p < 0 ->
  eos_rho_rest_simple rho_nuclear_v p_nuclear_v p = Failed NotARealNumber
  /\ eos_rho_simple rho_nuclear_v p_nuclear_v p = Failed NotARealNumber
  /\ forall r m : R,
       tov_equations r (p, m) (eos_rho_simple rho_nuclear_v p_nuclear_v)
       = Failed NotARealNumber.
Proof.
  intros Hpn Hp.
  assert (E : eos_rho_rest_simple rho_nuclear_v p_nuclear_v p = Failed NotARealNumber).
  { unfold eos_rho_rest_simple. rewrite fdiv_ok by lra. cbn [bind].
    rewrite fpow_negative_fraction; [reflexivity | | lra].
    assert (0 < - p / p_nuclear_v) by (apply Rdiv_lt_0_compat; lra).
    replace (p / p_nuclear_v) with (- (- p / p_nuclear_v)) by (field; lra).
    lra. }
  assert (E' : eos_rho_simple rho_nuclear_v p_nuclear_v p = Failed NotARealNumber)
    by (unfold eos_rho_simple; now rewrite E).
  split; [exact E | split; [exact E' |]].
  intros r m. unfold tov_equations. cbn [fst]. now rewrite E'.
Qed.

(** The cube grows with its base. *)
Lemma cube_increasing (a b : R) : a < b -> a ^ 3 < b ^ 3.
Proof.
  intros H.
  assert (E : b ^ 3 - a ^ 3 = (b - a) * (a * a + a * b + b * b)) by ring.
  assert (H1 : 0 <= (a + b) * (a + b)) by apply Rle_0_sqr.
  assert (H2 : 0 < (b - a) * (b - a)) by (apply Rmult_lt_0_compat; lra).
  assert (0 < a * a + a * b + b * b) by lra.
  assert (0 < (b - a) * (a * a + a * b + b * b)) by (apply Rmult_lt_0_compat; lra).
  lra.
Qed.

(** X6.  The pressure of the simple polytrope is defined at every rest
    density, is 0 at 0 and grows strictly with the density. *)
Theorem eos_p_simple_increasing (rho_nuclear_v p_nuclear_v a b : R) :
  0 < rho_nuclear_v -> 0 < p_nuclear_v -> a < b ->
  exists pa pb : R,
    eos_p_simple rho_nuclear_v p_nuclear_v a = Returned pa
    /\ eos_p_simple rho_nuclear_v p_nuclear_v b = Returned pb
    /\ pa < pb
    /\ eos_p_simple rho_nuclear_v p_nuclear_v 0 = Returned 0.
Proof.
  intros Hr Hp Hab.
  exists (p_nuclear_v * (a / rho_nuclear_v) ^ 3), (p_nuclear_v * (b / rho_nuclear_v) ^ 3).
  repeat split.
  - now apply eos_p_simple_value.
  - now apply eos_p_simple_value.
  - apply Rmult_lt_compat_l; [assumption |]. apply cube_increasing.
    unfold Rdiv. apply Rmult_lt_compat_r; [now apply Rinv_0_lt_compat | assumption].
  - rewrite eos_p_simple_value by assumption. f_equal. field. lra.
Qed.

(** X7.  For every pressure [p >= 0] the pressure of the rest density of
    [p] is [p]: the two functions of the simple polytrope are inverse of
    each other on this side too. *)
Theorem simple_pressure_round_trip (rho_nuclear_v p_nuclear_v p : R) :
  0 < rho_nuclear_v -> 0 < p_nuclear_v -> 0 <= p ->
  (rho_rest <- eos_rho_rest_simple rho_nuclear_v p_nuclear_v p ;;
   eos_p_simple rho_nuclear_v p_nuclear_v rho_rest)
  = Returned p.
Proof.
  intros Hr Hp Hp0.
  assert (Hq : 0 <= p / p_nuclear_v) by now apply div_nonneg.
  rewrite eos_rho_rest_simple_value by assumption. cbn [bind].
  rewrite eos_p_simple_value by assumption. f_equal.
  replace (rho_nuclear_v * pw (p / p_nuclear_v) (1 / 3) / rho_nuclear_v)
    with (pw (p / p_nuclear_v) (1 / 3)) by (field; lra).
  rewrite pw_cube by apply pw_nonneg.
  rewrite pw_root by lra. field. lra.
Qed.

(** ** An adiabatic index of 1 *)

Lemma pressure_law_positive_density (K rho_b gamma rho : R) :
  0 < rho_b -> 0 < rho ->
  pressure_law K rho_b gamma rho = Returned (K * Rpower (rho / rho_b) gamma).
Proof.
  intros Hb Hr. unfold pressure_law. rewrite fdiv_ok by lra. cbn [bind].
  rewrite fpow_pos by (apply Rdiv_lt_0_compat; lra). reflexivity.
Qed.

(** X12.  Nothing checks the adiabatic indices.  When one of [gamma1],
    [gamma2], [gamma3] is 1, the pressure function still returns a number
    at every positive density, but every call of [eos_rho_polytropic] stops
    on a division by zero, whatever the pressure: the constants [C_i] are
    computed before the segment is selected. *)
Theorem unit_adiabatic_index
        (rho0_v rho1_v rho2_v p1 gamma1 gamma2 gamma3 : R) :
  0 < rho0_v -> rho0_v < rho1_v < rho2_v ->
  gamma1 = 1 \/ gamma2 = 1 \/ gamma3 = 1 ->
  (forall p : R,
      eos_rho_polytropic rho0_v rho1_v rho2_v p p1 gamma1 gamma2 gamma3
      = Failed ZeroDivisionError)
  /\ (forall rho : R, 0 < rho ->
        exists v : R,
          eos_p_polytropic rho0_v rho1_v rho2_v rho p1 gamma1 gamma2 gamma3
          = Returned v).
Proof.
  intros H0 Ho Hg.
  assert (Ep0 : pressure_p0 rho0_v rho1_v p1 gamma1
                = Returned (p1 * Rpower (rho0_v / rho1_v) gamma1)).
  { unfold pressure_p0. rewrite fdiv_ok by lra. cbn [bind].
    rewrite fpow_pos by (apply Rdiv_lt_0_compat; lra). reflexivity. }
  assert (Ep2 : pressure_p2 rho1_v rho2_v p1 gamma2
                = Returned (p1 * Rpower (rho2_v / rho1_v) gamma2)).
  { unfold pressure_p2. rewrite fdiv_ok by lra. cbn [bind].
    rewrite fpow_pos by (apply Rdiv_lt_0_compat; lra). reflexivity. }
  split.
  - intros p. unfold eos_rho_polytropic. rewrite Ep0, Ep2. cbn [bind].
    unfold energy_constants, next_constant.
    rewrite (fdiv_ok _ rho0_v) by lra. cbn [bind].
    rewrite (fdiv_ok 1 (gamma0 - 1)) by (unfold gamma0; lra). cbn [bind].
    destruct (Req_dec_T gamma1 1) as [E1 | N1].
    { replace (gamma1 - 1) with 0 by lra. now rewrite fdiv_zero. }
    rewrite (fdiv_ok 1 (gamma1 - 1)) by lra. cbn [bind].
    rewrite (fdiv_ok _ rho1_v) by lra. cbn [bind].
    destruct (Req_dec_T gamma2 1) as [E2 | N2].
    { replace (gamma2 - 1) with 0 by lra. now rewrite fdiv_zero. }
    rewrite (fdiv_ok 1 (gamma2 - 1)) by lra. cbn [bind].
    rewrite (fdiv_ok _ rho2_v) by lra. cbn [bind].
    destruct (Req_dec_T gamma3 1) as [E3 | N3].
    { replace (gamma3 - 1) with 0 by lra. now rewrite fdiv_zero. }
    exfalso. tauto.
  - intros rho Hrho. unfold eos_p_polytropic. rewrite Ep0, Ep2. cbn [bind].
    rewrite density_conditions_eq. unfold np_piecewise, pressure_laws.
    destruct (Rlt_dec rho rho0_v) as [L0 | G0];
      [| destruct (Rlt_dec rho rho1_v) as [L1 | G1];
         [| destruct (Rlt_dec rho rho2_v) as [L2 | G2]]].
    + rewrite conditions_segment0 by lra. cbn [piecewise_from].
      rewrite pressure_law_positive_density by lra. cbn [bind]. eexists. reflexivity.
    + rewrite conditions_segment1 by lra. cbn [piecewise_from].
      rewrite pressure_law_positive_density by lra. cbn [bind]. eexists. reflexivity.
    + rewrite conditions_segment2 by lra. cbn [piecewise_from].
      rewrite pressure_law_positive_density by lra. cbn [bind]. eexists. reflexivity.
    + rewrite conditions_segment3 by lra. cbn [piecewise_from].
      rewrite pressure_law_positive_density by lra. cbn [bind]. eexists. reflexivity.
Qed.

(** ** More on the sweep *)

(** X13.  Whatever the step is, every row of a curve the sweep returns has
    a label below [rho_central_stop] that is one of the central densities
    of the sweep, and holds the mass and radius of the star of that label.
    When [rho_central_start < rho_central_stop] the curve is not empty and
    its first row is the star of [rho_central_start]: the early stop never
    applies to the first star. *)
Theorem curve_rows_are_stars
        (solve_tov : R -> (R -> outcome R) -> R -> outcome tov_profile)
        (m_units_si M_sun : R) (eos_p eos_rho : R -> outcome R)
        (rho_central_start rho_central_log_step rho_central_stop : R)
        (stop_at_maximum_mass : bool) (fuel : nat) (curve : MR_table) :
  sample_eos_mass_radius solve_tov m_units_si M_sun eos_p eos_rho
                         rho_central_start rho_central_log_step
                         rho_central_stop stop_at_maximum_mass fuel
  = Returned curve ->
  (forall (k : R) (v : R * R), In (k, v) curve ->
     k < rho_central_stop
     /\ star_M_R solve_tov m_units_si M_sun eos_p eos_rho k = Returned v
     /\ exists i : nat, k = rho_central_at rho_central_start rho_central_log_step i)
  /\ (rho_central_start < rho_central_stop ->
      exists (v : R * R) (rest : MR_table),
        star_M_R solve_tov m_units_si M_sun eos_p eos_rho rho_central_start = Returned v
        /\ curve = (rho_central_start, v) :: rest).
Proof.
  intros Hrun. unfold sample_eos_mass_radius in Hrun. split.
  - apply (sample_while_rows solve_tov m_units_si M_sun eos_p eos_rho
             rho_central_log_step rho_central_stop rho_central_start
             stop_at_maximum_mass fuel 0 [] curve).
    + intros k v [].
    + exact Hrun.
  - intros Hlt. destruct fuel as [| fuel]; [discriminate |].
    cbn [sample_while] in Hrun. rewrite Rltb_true in Hrun by assumption.
    destruct (star_M_R solve_tov m_units_si M_sun eos_p eos_rho rho_central_start)
      as [[M R_] | e |] eqn:Hstar; cbn [bind fst snd] in Hrun; try discriminate.
    cbn [length Nat.ltb Nat.leb] in Hrun. rewrite andb_false_r in Hrun.
    cbn [andb df_loc_set] in Hrun.
    destruct (sample_while_keeps_head solve_tov m_units_si M_sun eos_p eos_rho
                rho_central_log_step rho_central_stop stop_at_maximum_mass fuel
                rho_central_start (M, R_) [] curve _ Hstar Hrun) as [rest Hrest].
    exists (M, R_), rest. split; [reflexivity | exact Hrest].
Qed.


(** ** The equations of state of the table *)

(** X15.  The layer boundaries of the notebook are ordered,
    [0 < rho0 < rho1 < rho2], whatever the positive unit factor is.  A name
    that is not in the table gets a [KeyError]; and the pressure function
    that [make_polytrope_eos_p_and_rho] builds for a name of the table is
    defined on the densities [>= 0] and strictly increasing there. *)
Theorem table_equations_of_state (rho_factor p_factor : R) (name : string) :
  0 < rho_factor -> 0 < p_factor ->
  (0 < rho0_value rho_factor
   /\ rho0_value rho_factor < rho1_value rho_factor < rho2_value rho_factor)
  /\ (name <> "SLy"%string -> name <> "GS1"%string ->
      make_polytrope_eos_p_and_rho rho_factor p_factor name = Failed KeyError)
  /\ (forall eos_p eos_rho : R -> outcome R,
        make_polytrope_eos_p_and_rho rho_factor p_factor name
        = Returned (eos_p, eos_rho) ->
        forall a b : R, 0 <= a < b ->
          exists pa pb : R,
            eos_p a = Returned pa /\ eos_p b = Returned pb /\ pa < pb).
Proof.
  intros Hrho Hp.
  pose proof (layer_boundaries_ordered rho_factor Hrho) as [H0 Ho].
  split; [split; assumption | split].
  - intros N1 N2. unfold make_polytrope_eos_p_and_rho, polytropes.
    cbn [polytropes_get].
    apply not_eq_sym in N1. apply not_eq_sym in N2.
    apply String.eqb_neq in N1. apply String.eqb_neq in N2.
    rewrite N1, N2. reflexivity.
  - intros eos_p eos_rho Hmake a b Hab.
    unfold make_polytrope_eos_p_and_rho in Hmake.
    destruct (polytropes_get polytropes name) as [params | e |] eqn:Hget;
      cbn [bind] in Hmake; inversion Hmake; subst.
    destruct (polytropes_valid p_factor Hp name params Hget) as (Hp1 & H1 & H2 & H3).
    now apply eos_p_strictly_increasing.
Qed.

(** ** The further theorems at concrete inputs *)

Ltac run_draining :=
  unfold solve_tov_equations, solve_tov_run, initial_integrator, draining_solver;
  repeat (cbn [tov_while bind fst snd ode_success ode_t ode_y app map profile_of];
          decide_reals).

(** A star of central pressure 1 that loses 1/2 of pressure per step: the
    surface is reached at the second step. *)
Lemma surface_ends_integration_witness :
  solve_tov_equations draining_solver 3 1 (eos_rho_simple 1 1) (1 / 10)
  = Returned {| r_path := [0; 0 + 1 / 10; 0 + 1 / 10 + 1 / 10];
                p_path := [1; 1 - 1 / 2; 1 - 1 / 2 - 1 / 2];
                m_path := [0; 0 + 1 / 10; 0 + 1 / 10 + 1 / 10] |}.
Proof.
  apply (surface_ends_integration
           draining_solver (eos_rho_simple 1 1) (1 / 10) 1
           [ {| ode_t := 0 + 1 / 10; ode_y := (1 - 1 / 2, 0 + 1 / 10);
                ode_success := true |} ]
           {| ode_t := 0 + 1 / 10 + 1 / 10;
              ode_y := (1 - 1 / 2 - 1 / 2, 0 + 1 / 10 + 1 / 10);
              ode_success := true |}
           3).
  - cbn [app]. apply trace_cons; [reflexivity |].
    apply trace_cons; [reflexivity | apply trace_nil].
  - constructor; [| constructor]. split; [reflexivity |]. cbn [ode_y fst]. lra.
  - cbn [ode_y fst]. lra.
  - cbn [length]. lia.
Defined.

Lemma draining_run :
  solve_tov_run draining_solver 3 1 (eos_rho_simple 1 1) (1 / 10)
  = Returned ({| ode_t := 0 + 1 / 10 + 1 / 10;
                 ode_y := (1 - 1 / 2 - 1 / 2, 0 + 1 / 10 + 1 / 10);
                 ode_success := true |},
              [0; 0 + 1 / 10; 0 + 1 / 10 + 1 / 10],
              [(1, 0); (1 - 1 / 2, 0 + 1 / 10);
               (1 - 1 / 2 - 1 / 2, 0 + 1 / 10 + 1 / 10)]).
Proof. run_draining. reflexivity. Defined.

(** The profile of the same star has three states. *)
Lemma returned_profile_structure_witness :
  exists prof : tov_profile,
    solve_tov_equations draining_solver 3 1 (eos_rho_simple 1 1) (1 / 10)
    = Returned prof
    /\ (2 <= length (r_path prof))%nat
    /\ length (p_path prof) = length (r_path prof)
    /\ length (m_path prof) = length (r_path prof).
Proof.
  eexists.
  assert (Hrun :
    solve_tov_equations draining_solver 3 1 (eos_rho_simple 1 1) (1 / 10)
    = Returned {| r_path := [0; 0 + 1 / 10; 0 + 1 / 10 + 1 / 10];
                  p_path := [1; 1 - 1 / 2; 1 - 1 / 2 - 1 / 2];
                  m_path := [0; 0 + 1 / 10; 0 + 1 / 10 + 1 / 10] |})
    by (run_draining; reflexivity).
  split; [exact Hrun |].
  apply (returned_profile_structure draining_solver (eos_rho_simple 1 1)
           (1 / 10) 1 3 _ Hrun).
Defined.

(** Its radii are 0, 1/10 and 2/10. *)
Lemma radii_are_multiples_witness :
  nth 1 [0; 0 + 1 / 10; 0 + 1 / 10 + 1 / 10] 0 = INR 1 * (1 / 10)
  /\ nth 2 [0; 0 + 1 / 10; 0 + 1 / 10 + 1 / 10] 0 = INR 2 * (1 / 10).
Proof.
  assert (Hreach : forall f o0 t1 o1,
             draining_solver f o0 t1 = Returned o1 ->
             ode_success o1 = true -> ode_t o1 = t1).
  { intros f o0 t1 o1 H _. unfold draining_solver in H.
    inversion H; subst. reflexivity. }
  destruct (radii_are_multiples_of_step draining_solver (eos_rho_simple 1 1)
              (1 / 10) 1 3 _ _ _ Hreach draining_run) as [Hin Hlast].
  split.
  - apply (Hin 1%nat). cbn [length]. lia.
  - apply Hlast. reflexivity.
Defined.

(** The right-hand side at [r = 1], outside the mass 0. *)
Lemma pressure_decreases_outward_witness :
  (exists dp dm : R,
      tov_equations 1 (1, 0) (fun p => Returned p) = Returned (dp, dm)
      /\ dp <= 0 /\ 0 <= dm)
  /\ tov_equations 0 (1, 0) (fun p => Returned p) = Returned (0, 0).
Proof.
  destruct (pressure_decreases_outward (fun p => Returned p) 1 1 0 1 eq_refl)
    as [Hout Hcentre].
  split; [apply Hout; lra | exact Hcentre].
Defined.

(** The simple polytrope at the pressure -1. *)
Lemma simple_polytrope_negative_pressure_witness :
  eos_rho_rest_simple 1 1 (-1) = Failed NotARealNumber
  /\ eos_rho_simple 1 1 (-1) = Failed NotARealNumber
  /\ forall r m : R,
       tov_equations r (-1, m) (eos_rho_simple 1 1) = Failed NotARealNumber.
Proof.
  apply (simple_polytrope_negative_pressure 1 1 (-1)); lra.
Defined.

(** The pressures of the simple polytrope at the densities 1 and 2. *)
Lemma eos_p_simple_increasing_witness :
  exists pa pb : R,
    eos_p_simple 1 1 1 = Returned pa /\ eos_p_simple 1 1 2 = Returned pb
    /\ pa < pb /\ eos_p_simple 1 1 0 = Returned 0.
Proof.
  apply (eos_p_simple_increasing 1 1 1 2); lra.
Defined.

(** The pressure 8 through the simple polytrope. *)
Lemma simple_pressure_round_trip_witness :
  (rho_rest <- eos_rho_rest_simple 1 1 8 ;; eos_p_simple 1 1 rho_rest) = Returned 8.
Proof.
  apply (simple_pressure_round_trip 1 1 8); lra.
Defined.

(** The piecewise polytrope with the boundaries 1, 2, 4, the anchor
    pressure 1 and all indices 2, at the densities 1/2 and 3. *)
Lemma eos_p_polytropic_increasing_witness :
  exists pa pb : R,
    eos_p_polytropic 1 2 4 (1 / 2) 1 2 2 2 = Returned pa
    /\ eos_p_polytropic 1 2 4 3 1 2 2 2 = Returned pb
    /\ pa < pb
    /\ eos_p_polytropic 1 2 4 0 1 2 2 2 = Returned 0.
Proof.
  apply (eos_p_polytropic_increasing 1 2 4); lra.
Defined.

(** The pressure 3 through the same polytrope. *)
Lemma polytropic_pressure_round_trip_witness :
  (rho <- eos_rho_rest_polytropic 1 2 4 3 1 2 2 2 ;;
   eos_p_polytropic 1 2 4 rho 1 2 2 2) = Returned 3.
Proof.
  apply (polytropic_pressure_round_trip 1 2 4); lra.
Defined.

(** The energy density of the same polytrope at the pressure of a
    density. *)
Lemma energy_density_at_density_witness :
  exists p0 p2 c1 c2 c3 : R,
    pressure_p0 1 2 1 2 = Returned p0 /\
    pressure_p2 2 4 1 2 = Returned p2 /\
    energy_constants 1 2 4 p0 1 p2 2 2 2 = Returned (1, c1, c2, c3) /\
    forall rho : R, 0 <= rho ->
      exists p : R,
        eos_p_polytropic 1 2 4 rho 1 2 2 2 = Returned p
        /\ (rho < 1 ->
            eos_rho_polytropic 1 2 4 p 1 2 2 2
            = Returned (1 * rho + p / (gamma0 - 1)))
        /\ (1 <= rho < 2 ->
            eos_rho_polytropic 1 2 4 p 1 2 2 2 = Returned (c1 * rho + p / (2 - 1)))
        /\ (2 <= rho < 4 ->
            eos_rho_polytropic 1 2 4 p 1 2 2 2 = Returned (c2 * rho + p / (2 - 1)))
        /\ (4 <= rho ->
            eos_rho_polytropic 1 2 4 p 1 2 2 2 = Returned (c3 * rho + p / (2 - 1))).
Proof.
  apply (energy_density_at_density 1 2 4); lra.
Defined.

(** The same polytrope at the pressure -1. *)
Lemma polytropic_negative_pressure_witness :
  eos_rho_rest_polytropic 1 2 4 (-1) 1 2 2 2 = Failed NotARealNumber
  /\ eos_rho_polytropic 1 2 4 (-1) 1 2 2 2 = Failed NotARealNumber.
Proof.
  apply (polytropic_negative_pressure 1 2 4); lra.
Defined.

(** The boundaries 1, 2, 4 with [gamma1 = 1]. *)
Lemma unit_adiabatic_index_witness :
  (forall p : R, eos_rho_polytropic 1 2 4 p 1 1 2 2 = Failed ZeroDivisionError)
  /\ (forall rho : R, 0 < rho ->
        exists v : R, eos_p_polytropic 1 2 4 rho 1 1 2 2 = Returned v).
Proof.
  apply (unit_adiabatic_index 1 2 4 1 1 2 2); [lra | lra | now left].
Defined.

Lemma doubling_sweep_run :
  sample_eos_mass_radius (star_of_mass (fun p => p * (4 - p))) 1 1
                         (fun rho => Returned rho) (fun p => Returned p)
                         1 1 5 true 3
  = Returned [(1, (1 * (4 - 1) * 1 / 1, 1));
              (1 + 1 * 1, ((1 + 1 * 1) * (4 - (1 + 1 * 1)) * 1 / 1, 1))].
Proof. run_sweep. reflexivity. Defined.

(** The sweep from 1 to 5 that doubles the density: its first row is the
    star of the density 1. *)
Lemma curve_rows_are_stars_witness :
  exists (v : R * R) (rest : MR_table),
    star_M_R (star_of_mass (fun p => p * (4 - p))) 1 1
             (fun rho => Returned rho) (fun p => Returned p) 1 = Returned v
    /\ [(1, (1 * (4 - 1) * 1 / 1, 1));
        (1 + 1 * 1, ((1 + 1 * 1) * (4 - (1 + 1 * 1)) * 1 / 1, 1))]
       = (1, v) :: rest.
Proof.
  apply (curve_rows_are_stars (star_of_mass (fun p => p * (4 - p))) 1 1
           (fun rho => Returned rho) (fun p => Returned p) 1 1 5 true 3 _
           doubling_sweep_run).
  lra.
Defined.


(** The table with both unit factors 1 and a name it does not have. *)
Lemma table_equations_of_state_witness :
  (0 < rho0_value 1 /\ rho0_value 1 < rho1_value 1 < rho2_value 1)
  /\ make_polytrope_eos_p_and_rho 1 1 "APR4"%string = Failed KeyError.
Proof.
  destruct (table_equations_of_state 1 1 "APR4"%string) as (Hord & Hkey & _);
    [lra | lra |].
  split; [exact Hord |].
  apply Hkey; discriminate.
Defined.
